(** * dockmon-cli: the client-side reconciliation and presentation model

    A shallow embedding of [dockmon_cli.py]: the Host/Container entity
    model, version inference, the container filter, the selective
    update-status synchronisation, the relative-time formatter and the
    mutating-action dispatchers, followed by the properties stated about
    them.

    Conventions.
    - A Python [dict] decoded from JSON whose keys are looked up by name is
      a [gmap string _]; a dict that is iterated (the container's [env], the
      [hosts] table) is an association list in insertion order.
    - [None] is [None] of an [option], or [JNull] inside decoded JSON.
    - A Python exception is [Raise e]; code that talks to the service or to
      the terminal runs in the monad [io], which threads the list of
      requests sent and the lines printed.
    - [datetime.now()] reads the clock: every function that calls it takes
      the instant read as its argument [clock].
    - [datetime.fromisoformat] is the library's parser: the model takes it
      as the section variable [fromisoformat] ([None] is [ValueError]). *)

From Stdlib Require Import ZArith String Ascii List DecimalString.
From stdpp Require Import base gmap strings list.

Open Scope Z_scope.

(** ** Python values *)

(** A decoded JSON scalar. *)
Inductive json : Type :=
  | JNull
  | JBool (b : bool)
  | JNum (n : Z)
  | JStr (s : string).

#[global] Instance json_eq_dec : EqDecision json.
Proof. solve_decision. Defined.

(** A naive [datetime], as microseconds since 1970-01-01 00:00:00. *)
Record datetime : Type := Datetime { timestamp_us : Z }.

#[global] Instance datetime_eq_dec : EqDecision datetime.
Proof. solve_decision. Defined.

(** A value held in an [update_status] dict: what the service sent, or the
    [datetime] the setter stores over [last_checked_at]. *)
Inductive pyval : Type :=
  | PJson (j : json)
  | PDatetime (t : datetime).

#[global] Instance pyval_eq_dec : EqDecision pyval.
Proof. solve_decision. Defined.

(** [bool(x)]. *)
Definition json_truthy (j : json) : bool :=
  match j with
  | JNull => false
  | JBool b => b
  | JNum n => negb (n =? 0)
  | JStr s => negb (String.eqb s "")
  end.

Definition truthy (v : pyval) : bool :=
  match v with
  | PJson j => json_truthy j
  | PDatetime _ => true
  end.

(** Truthiness of an optional string ([None] and [""] are false). *)
Definition str_truthy (o : option string) : bool :=
  match o with
  | Some s => negb (String.eqb s "")
  | None => false
  end.

(** [str(n)] for an [int]. *)
Definition fmt_int (z : Z) : string := NilZero.string_of_int (Z.to_int z).

(** [str(x)], as an f-string renders a decoded JSON scalar. *)
Definition json_str (j : json) : string :=
  match j with
  | JNull => "None"
  | JBool true => "True"
  | JBool false => "False"
  | JNum n => fmt_int n
  | JStr s => s
  end.

(** [str(x)] of an optional string: [None] prints as ["None"]. *)
Definition opt_str (o : option string) : string := default "None" o.

(** [x == s] for a string literal [s]. *)
Definition json_eq_str (j : json) (s : string) : bool :=
  match j with
  | JStr s' => String.eqb s' s
  | _ => false
  end.

(** ** Exceptions *)

Inductive exn : Type :=
  | KeyError (key : string)
  | AttributeError
  | IndexError
  | TypeError
  | ValueError
  | HTTPError (body : gmap string json)
  | SystemExit.

Inductive result (A : Type) : Type :=
  | Ok (a : A)
  | Raise (e : exn).

Arguments Ok {A} a.
Arguments Raise {A} e.

Definition bind_result {A B} (r : result A) (k : A → result B) : result B :=
  match r with
  | Ok a => k a
  | Raise e => Raise e
  end.

#[global] Instance result_bind : MBind result := λ A B k r, bind_result r k.
#[global] Instance result_ret : MRet result := @Ok.

(** [d[k]]: a subscript raises [KeyError] on a missing key. *)
Definition subscript {V} (d : gmap string V) (k : string) : result V :=
  match d !! k with
  | Some v => Ok v
  | None => Raise (KeyError k)
  end.

(** [d.get(k)] on a status dict: a missing key reads as [None]. *)
Definition dict_get (d : gmap string pyval) (k : string) : pyval :=
  default (PJson JNull) (d !! k).

(** ** Python string methods *)

Definition is_empty (s : string) : bool :=
  match s with
  | EmptyString => true
  | String _ _ => false
  end.

(** [sub in s]. *)
Fixpoint str_in (sub s : string) : bool :=
  String.prefix sub s ||
  match s with
  | EmptyString => false
  | String _ s' => str_in sub s'
  end.

(** [s.rstrip(c)] for a one-character set. *)
Fixpoint rstrip (c : ascii) (s : string) : string :=
  match s with
  | EmptyString => EmptyString
  | String a s' =>
      let r := rstrip c s' in
      if Ascii.eqb a c && is_empty r then EmptyString else String a r
  end.

(** [s.split(c)] for a one-character separator. *)
Fixpoint split (c : ascii) (s : string) : list string :=
  match s with
  | EmptyString => [EmptyString]
  | String a s' =>
      if Ascii.eqb a c then EmptyString :: split c s'
      else match split c s' with
           | p :: ps => String a p :: ps
           | [] => [String a EmptyString]
           end
  end.

(** [s.split(c, 1)]: split at the first separator only. *)
Fixpoint split1 (c : ascii) (s : string) : list string :=
  match s with
  | EmptyString => [EmptyString]
  | String a s' =>
      if Ascii.eqb a c then [EmptyString; s']
      else match split1 c s' with
           | p :: ps => String a p :: ps
           | [] => [String a EmptyString]
           end
  end.

(** [s[:n]]. *)
Definition str_take (n : nat) (s : string) : string := String.substring 0 n s.

(** [s.replace(old, new)] for a non-empty [old]: occurrences are replaced
    left to right without overlap; [skip] counts the characters of a
    matched occurrence still to be dropped. *)
Fixpoint replace_go (old new : string) (skip : nat) (s : string) : string :=
  match s with
  | EmptyString => EmptyString
  | String a s' =>
      match skip with
      | S k => replace_go old new k s'
      | O =>
          if String.prefix old s
          then new +:+ replace_go old new (String.length old - 1) s'
          else String a (replace_go old new 0 s')
      end
  end.

Definition replace (old new s : string) : string := replace_go old new 0 s.

(** [l[-1]] and [l[1]] on a list. *)
Definition last_item {A} (l : list A) : result A :=
  match last l with
  | Some x => Ok x
  | None => Raise IndexError
  end.

Definition item1 {A} (l : list A) : result A :=
  match l with
  | _ :: x :: _ => Ok x
  | _ => Raise IndexError
  end.

(** ** The relative-time formatter ([Container.human_time_diff]) *)

Definition human_time_diff_future (seconds : Z) : string :=
  if seconds <? 60 then "in " +:+ fmt_int seconds +:+ " seconds" else
  let minutes := seconds / 60 in
  if minutes <? 60 then
    (if minutes =? 1 then "in 1 minute" else "in " +:+ fmt_int minutes +:+ " minutes") else
  let hours := minutes / 60 in
  if hours <? 24 then
    (if hours =? 1 then "in 1 hour" else "in " +:+ fmt_int hours +:+ " hours") else
  let days := hours / 24 in
  if days <? 7 then
    (if days =? 1 then "tomorrow" else "in " +:+ fmt_int days +:+ " days") else
  let weeks := days / 7 in
  if weeks <? 5 then
    (if weeks =? 1 then "in 1 week" else "in " +:+ fmt_int weeks +:+ " weeks") else
  let months := days / 30 in
  if months <? 12 then
    (if months =? 1 then "in 1 month" else "in " +:+ fmt_int months +:+ " months") else
  let years := days / 365 in
  if years =? 1 then "in 1 year" else "in " +:+ fmt_int years +:+ " years".

(** [int((now - past).total_seconds())]: the difference in whole seconds,
    truncated towards zero. *)
Definition elapsed_seconds (past now : datetime) : Z :=
  Z.quot (timestamp_us now - timestamp_us past) 1000000.

(** The body of [human_time_diff] once [seconds] is computed. *)
Definition human_time_diff_seconds (seconds : Z) : string :=
  if seconds <? 0 then human_time_diff_future (- seconds) else
  if seconds <? 60 then "for " +:+ fmt_int seconds +:+ " seconds" else
  let minutes := seconds / 60 in
  if minutes <? 60 then
    (if minutes =? 1 then "for 1 minute" else "for " +:+ fmt_int minutes +:+ " minutes") else
  let hours := minutes / 60 in
  if hours <? 24 then
    (if hours =? 1 then "for 1 hour" else "for " +:+ fmt_int hours +:+ " hours") else
  let days := hours / 24 in
  if days =? 1 then "since yesterday" else
  if days <? 7 then "for " +:+ fmt_int days +:+ " days" else
  let weeks := days / 7 in
  if weeks <? 5 then
    (if weeks =? 1 then "for 1 week" else "for " +:+ fmt_int weeks +:+ " weeks") else
  let months := days / 30 in
  if months <? 12 then
    (if months =? 1 then "for 1 month" else "for " +:+ fmt_int months +:+ " months") else
  let years := days / 365 in
  if years =? 1 then "for 1 year" else "for " +:+ fmt_int years +:+ " years".

(** [human_time_diff(past, now)]; [now=None] reads the clock. *)
Definition human_time_diff (clock : datetime) (past : datetime)
    (now : option datetime) : string :=
  let now := default clock now in
  human_time_diff_seconds (elapsed_seconds past now).

(** *** The wording table of the specification

    Follows the table of the specification (section 4.4), bucket by bucket,
    on the elapsed whole seconds: [n] is the count shown, [unit] its name. *)

Inductive direction : Type := Past | Future.

Definition counted (d : direction) (n : Z) (unit : string) : string :=
  match d with
  | Past => "for "
  | Future => "in "
  end +:+ fmt_int n +:+ " " +:+ unit.






(** ** The filter contract of the specification

    Follows the wording of the specification (section 4.1): a filter is set
    when it is a non-empty string; the name rule is exact equality, or
    membership of the filter in the allow-list together with a substring
    hit; the image rule is a substring hit. *)

Definition partial_match_allow_list : list string := ["www"; "php"; "librenms"].

Definition name_rule_spec (name_filter name : string) : bool :=
  bool_decide (name_filter = name)
  || (bool_decide (name_filter ∈ partial_match_allow_list) && str_in name_filter name).

Definition image_rule_spec (image_filter image : string) : bool :=
  str_in image_filter image.

Definition matches_spec (name image : string) (name_filter image_filter : option string)
    : bool :=
  match str_truthy name_filter, str_truthy image_filter with
  | false, false => true
  | true, true =>
      image_rule_spec (default EmptyString image_filter) image
      && name_rule_spec (default EmptyString name_filter) name
  | true, false => name_rule_spec (default EmptyString name_filter) name
  | false, true => image_rule_spec (default EmptyString image_filter) image
  end.

(** ** The version resolution chain of the specification

    Follows the wording of the specification (section 4.2): the OCI
    image-version label, then the value of a well-known database or cache
    version variable, then the variable recognised for the image's base
    name; the first non-empty value wins, and ["N/A"] is shown if there is
    none. Where the environment lists several variables of a stage, the
    one listed last is read. *)

Definition well_known_version_variables : list string :=
  ["PG_VERSION"; "REDIS_VERSION"; "INFLUXDB_VERSION"].

(** The value of the last entry of [env] whose key is one of [vars]. *)
Definition env_value (env : list (string * string)) (vars : list string)
    : option string :=
  snd <$> last (filter (λ kv, kv.1 ∈ vars) env).

(** The base name of an image reference: what precedes its first [:],
    cut after its last [/]. *)
Definition base_name (image : string) : string :=
  default EmptyString (last (split "/" (hd EmptyString (split1 ":" image)))).

Definition image_specific_variable (base : string) : option string :=
  if String.eqb base "php" then Some "PHP_VERSION"
  else if String.eqb base "nginx" then Some "NGINX_VERSION"
  else if String.eqb base "python" then Some "PYTHON_VERSION"
  else None.

(** A value counts only when it is a non-empty string. *)
Definition non_empty (o : option string) : option string :=
  if str_truthy o then o else None.

Fixpoint first_non_empty (chain : list (option string)) : option string :=
  match chain with
  | [] => None
  | o :: rest => if str_truthy o then o else first_non_empty rest
  end.

(** ** A sample ISO-8601 parser

    Stands in for [datetime.fromisoformat] in the examples: it reads
    [YYYY-MM-DD], [YYYY-MM-DDTHH:MM:SS] and [YYYY-MM-DDTHH:MM:SS.ffffff]
    and rejects everything else. The properties below are stated for any
    parser; only the worked examples use this one. *)

Definition digit_of (a : ascii) : option Z :=
  let n := Z.of_N (N_of_ascii a) in
  if (48 <=? n) && (n <=? 57) then Some (n - 48) else None.

Fixpoint take_digits (n : nat) (acc : Z) (l : list ascii) : option (Z * list ascii) :=
  match n with
  | O => Some (acc, l)
  | S n' =>
      match l with
      | a :: l' => d ← digit_of a; take_digits n' (10 * acc + d) l'
      | [] => None
      end
  end.

Definition expect (c : ascii) (l : list ascii) : option (list ascii) :=
  match l with
  | a :: l' => if Ascii.eqb a c then Some l' else None
  | [] => None
  end.

Definition is_leap (y : Z) : bool :=
  ((y mod 4 =? 0) && negb (y mod 100 =? 0)) || (y mod 400 =? 0).

Definition days_in_month (y m : Z) : Z :=
  if m =? 2 then (if is_leap y then 29 else 28)
  else if (m =? 4) || (m =? 6) || (m =? 9) || (m =? 11) then 30
  else 31.

(** Days from 1970-01-01 to the given civil date. *)
Definition days_from_civil (y m d : Z) : Z :=
  let y' := if m <=? 2 then y - 1 else y in
  let era := y' / 400 in
  let yoe := y' - era * 400 in
  let doy := (153 * (if 2 <? m then m - 3 else m + 9) + 2) / 5 + d - 1 in
  let doe := yoe * 365 + yoe / 4 - yoe / 100 + doy in
  era * 146097 + doe - 719468.

Definition iso_time (l : list ascii) : option Z :=
  match l with
  | [] => Some 0
  | _ =>
      l ← expect "T" l;
      '(hh, l) ← take_digits 2 0 l;
      l ← expect ":" l;
      '(mm, l) ← take_digits 2 0 l;
      l ← expect ":" l;
      '(ss, l) ← take_digits 2 0 l;
      '(us, l) ← match l with
                 | [] => Some (0, [])
                 | _ => l ← expect "." l; take_digits 6 0 l
                 end;
      match l with
      | [] =>
          if (hh <? 24) && (mm <? 60) && (ss <? 60)
          then Some (((hh * 60 + mm) * 60 + ss) * 1000000 + us)
          else None
      | _ => None
      end
  end.

Definition iso_sample (s : string) : option datetime :=
  let l := list_ascii_of_string s in
  '(y, l) ← take_digits 4 0 l;
  l ← expect "-" l;
  '(m, l) ← take_digits 2 0 l;
  l ← expect "-" l;
  '(d, l) ← take_digits 2 0 l;
  t ← iso_time l;
  if (1 <=? y) && (1 <=? m) && (m <=? 12) && (1 <=? d) && (d <=? days_in_month y m)
  then Some (Datetime (days_from_civil y m d * 86400000000 + t))
  else None.

(** ** The entity model *)

(** A raw container record of the [containers] listing. Each field is the
    value under the key of the same name, [None] when the key is missing
    or null. [r_env] lists the environment in the order of the payload,
    with distinct keys; [container['env']] on a record without it raises.
    [r_started] is the record's own started timestamp. *)
Record raw_container : Type := {
  r_id : option string;
  r_name : option string;
  r_host_name : option string;
  r_host_id : option string;
  r_image : option string;
  r_state : option string;
  r_ports : option string;
  r_created : option string;
  r_started : option string;
  r_healthy : option bool;
  r_labels : option (gmap string string);
  r_env : option (list (string * string))
}.

(** A raw record of the [hosts] listing. *)
Record raw_host : Type := {
  rh_id : option string;
  rh_name : option string
}.

(** [Host.as_summary_dict()], what a container's back-reference shows. *)
Record host_summary : Type := {
  hs_id : option string;
  hs_name : option string
}.

Record Container : Type := {
  c_id : option string;
  c_name : option string;
  c_host_name : option string;
  c_host_id : option string;
  c_host : option host_summary;
  c_image : option string;
  c_state : option string;
  c_ports : string;
  container_id : string;
  created : datetime;
  started : datetime;
  healthy : option bool;
  _update_status : gmap string pyval;
  _version : option string
}.

(** [{ 'update_available': False }] *)
Definition default_update_status : gmap string pyval :=
  {[ "update_available" := PJson (JBool false) ]}.

Definition opt_json (o : option string) : pyval :=
  match o with
  | Some s => PJson (JStr s)
  | None => PJson JNull
  end.

Definition version_env_strings : list string :=
  ["PG_VERSION"; "REDIS_VERSION"; "INFLUXDB_VERSION"].

(** [for env in container['env']: if env in names: version = container['env'][env]] *)
Definition scan_env (names : list string) (env : list (string * string))
    (version : option string) : option string :=
  fold_left (fun ver kv => if bool_decide (kv.1 ∈ names) then Some kv.2 else ver)
            env version.

(** [container['env']] *)
Definition env_of (container : raw_container) : result (list (string * string)) :=
  match r_env container with
  | Some env => Ok env
  | None => Raise (KeyError "env")
  end.

(** One image-specific fallback:
    [if not version: if image_name == image: for env in ...: if env == var: ...] *)
Definition image_fallback (container : raw_container) (image_name image var : string)
    (version : option string) : result (option string) :=
  if negb (str_truthy version) then
    if String.eqb image_name image then
      env ← env_of container;
      Ok (scan_env [var] env version)
    else Ok version
  else Ok version.

(** [image.split(":", 1)[0].split("/")[-1]] *)
Definition image_name_of (image : string) : result string :=
  last_item (split "/" (hd EmptyString (split1 ":" image))).

Definition _get_version (container : raw_container) : result (option string) :=
  labels ← match r_labels container with
           | Some l => Ok l
           | None => Raise AttributeError
           end;
  let version := labels !! "org.opencontainers.image.version" in
  image ← match r_image container with
          | Some i => Ok i
          | None => Raise AttributeError
          end;
  image_name ← image_name_of image;
  image_version ← item1 (split1 ":" image);
  version ← (if negb (str_truthy version) then
               env ← env_of container;
               Ok (scan_env version_env_strings env version)
             else Ok version);
  version ← image_fallback container image_name "php" "PHP_VERSION" version;
  version ← image_fallback container image_name "nginx" "NGINX_VERSION" version;
  version ← image_fallback container image_name "python" "PYTHON_VERSION" version;
  Ok version.

(** The chain of a raw container record, in resolution order. *)
Definition version_chain (raw : raw_container) : list (option string) :=
  let env := default [] (r_env raw) in
  [ labels ← r_labels raw; labels !! "org.opencontainers.image.version";
    env_value env well_known_version_variables;
    var ← image_specific_variable (base_name (default EmptyString (r_image raw)));
    env_value env [var] ].

Definition version_spec (raw : raw_container) : string :=
  default "N/A" (first_non_empty (version_chain raw)).

Section Model.

(** [datetime.fromisoformat]; [None] stands for [ValueError]. *)
Variable fromisoformat : string → option datetime.

(** The [try] block of [parse_ns_iso8601]. *)
Definition parse_ns_iso8601_try (s : pyval) : result datetime :=
  match s with
  | PJson (JStr s) =>
      let s := rstrip "Z" s in
      s ← (if str_in "." s then
             match split "." s with
             | [ts; frac] => Ok (ts +:+ "." +:+ str_take 6 frac)
             | _ => Raise ValueError
             end
           else Ok s);
      match fromisoformat s with
      | Some t => Ok t
      | None => Raise ValueError
      end
  | _ => Raise AttributeError
  end.

(** [except (ValueError, AttributeError): return datetime.now()] *)
Definition parse_ns_iso8601 (clock : datetime) (s : pyval) : result datetime :=
  match parse_ns_iso8601_try s with
  | Ok t => Ok t
  | Raise ValueError | Raise AttributeError => Ok clock
  | Raise e => Raise e
  end.

(** [Container.__init__] *)
Definition Container_init (clock : datetime) (cont : raw_container) : result Container :=
  created ← parse_ns_iso8601 clock (opt_json (r_created cont));
  started ← parse_ns_iso8601 clock (opt_json (r_created cont));
  version ← _get_version cont;
  Ok {| c_id := r_id cont;
        c_name := r_name cont;
        c_host_name := r_host_name cont;
        c_host_id := r_host_id cont;
        c_host := None;
        c_image := r_image cont;
        c_state := r_state cont;
        c_ports := default EmptyString (r_ports cont);
        container_id := opt_str (r_host_id cont) +:+ ":" +:+ opt_str (r_id cont);
        created := created;
        started := started;
        healthy := r_healthy cont;
        _update_status := default_update_status;
        _version := version |}.

(** The [version] property: [self._version or "N/A"]. *)
Definition version (c : Container) : string :=
  if str_truthy (_version c) then default EmptyString (_version c) else "N/A".

(** The [update_available] property. *)
Definition update_available (c : Container) : result pyval :=
  subscript (_update_status c) "update_available".

Definition with_update_status (c : Container) (us : gmap string pyval) : Container :=
  {| c_id := c_id c; c_name := c_name c; c_host_name := c_host_name c;
     c_host_id := c_host_id c; c_host := c_host c; c_image := c_image c;
     c_state := c_state c; c_ports := c_ports c; container_id := container_id c;
     created := created c; started := started c; healthy := healthy c;
     _update_status := us; _version := _version c |}.

(** The wording stored under [last_checked]. *)
Definition last_checked (clock : datetime) (t : datetime) : string :=
  replace "for " "" (replace "since" "" (human_time_diff clock t None)) +:+ " ago".

(** The [update_status] setter. The dict assigned is the caller's own
    object: the dict returned inside the container is also what the
    caller's payload holds afterwards. *)
Definition set_update_status (clock : datetime) (c : Container)
    (update_status : gmap string pyval) : result Container :=
  let us := update_status in
  cv ← subscript us "current_version";
  let us :=
    if negb (truthy cv) && str_truthy (_version c)
    then <["current_version" := opt_json (_version c)]> us
    else us in
  us ← (if truthy (dict_get us "last_checked_at") then
          t ← parse_ns_iso8601 clock (dict_get us "last_checked_at");
          let us := <["last_checked_at" := PDatetime t]> us in
          Ok (<["last_checked" := PJson (JStr (last_checked clock t))]> us)
        else Ok us);
  Ok (with_update_status c us).


(** ** The filter ([_container_match]) *)

Definition partial_names : list string := ["www"; "php"; "librenms"].

(** [sub in s] where [s] may be [None]. *)
Definition py_in (sub : string) (s : option string) : result bool :=
  match s with
  | Some s => Ok (str_in sub s)
  | None => Raise TypeError
  end.

(** The name rule shared by two branches:
    [if name_match == container.name: return True]
    [if name_match in partial_names and name_match in container.name: return True] *)
Definition name_rule (container : Container) (name_match : string) : result bool :=
  if bool_decide (Some name_match = c_name container) then Ok true
  else if bool_decide (name_match ∈ partial_names) then
    py_in name_match (c_name container)
  else Ok false.

Definition _container_match (container : Container)
    (name_match image_match : option string) : result bool :=
  let nm := default EmptyString name_match in
  let im := default EmptyString image_match in
  if negb (str_truthy name_match) && negb (str_truthy image_match) then Ok true
  else if str_truthy name_match && str_truthy image_match then
    in_image ← py_in im (c_image container);
    if (in_image : bool) then name_rule container nm else Ok false
  else if str_truthy name_match && negb (str_truthy image_match) then
    name_rule container nm
  else if str_truthy image_match && negb (str_truthy name_match) then
    py_in im (c_image container)
  else Ok false.

(** ** Hosts *)

(** [args.order] *)
Inductive order : Type := by_name | by_image | by_state | by_update_available.

Record Host : Type := {
  h_id : option string;
  h_name : option string;
  _containers : list Container;
  container_order : order
}.

Definition Host_init (host : raw_host) : Host :=
  {| h_id := rh_id host; h_name := rh_name host;
     _containers := []; container_order := by_name |}.

Definition set_container_order (h : Host) (o : order) : Host :=
  {| h_id := h_id h; h_name := h_name h;
     _containers := _containers h; container_order := o |}.

Definition as_summary_dict (h : Host) : host_summary :=
  {| hs_id := h_id h; hs_name := h_name h |}.

Definition set_host (c : Container) (h : host_summary) : Container :=
  {| c_id := c_id c; c_name := c_name c; c_host_name := c_host_name c;
     c_host_id := c_host_id c; c_host := Some h; c_image := c_image c;
     c_state := c_state c; c_ports := c_ports c; container_id := container_id c;
     created := created c; started := started c; healthy := healthy c;
     _update_status := _update_status c; _version := _version c |}.

(** [self._containers.append(container); container.host = self] *)
Definition add_container (h : Host) (container : Container) : Host :=
  {| h_id := h_id h; h_name := h_name h;
     _containers := _containers h ++ [set_host container (as_summary_dict h)];
     container_order := container_order h |}.

(** The value of a JSON number or boolean in a comparison. *)
Definition json_num (j : json) : option Z :=
  match j with
  | JBool b => Some (if b then 1 else 0)
  | JNum n => Some n
  | _ => None
  end.

(** [x < y]: strings with strings, numbers with numbers, anything else is
    a [TypeError]. *)
Definition py_lt (x y : pyval) : result bool :=
  match x, y with
  | PJson (JStr a), PJson (JStr b) => Ok (String.ltb a b)
  | PDatetime a, PDatetime b => Ok (timestamp_us a <? timestamp_us b)
  | PJson a, PJson b =>
      match json_num a, json_num b with
      | Some m, Some n => Ok (m <? n)
      | _, _ => Raise TypeError
      end
  | _, _ => Raise TypeError
  end.

(** [sorted(l, key=...)]: keys are computed first, then a stable sort that
    only asks [x < y]. *)
Fixpoint insert_by {A} (kx : pyval) (x : A) (l : list (pyval * A))
    : result (list (pyval * A)) :=
  match l with
  | [] => Ok [(kx, x)]
  | (ky, y) :: l' =>
      lt ← py_lt kx ky;
      if (lt : bool) then Ok ((kx, x) :: (ky, y) :: l')
      else r ← insert_by kx x l'; Ok ((ky, y) :: r)
  end.

Definition sorted {A} (key : A → result pyval) (l : list A) : result (list A) :=
  keyed ← mapM (fun x => k ← key x; Ok (k, x)) l;
  r ← foldl (fun acc kx => acc ← acc; insert_by kx.1 kx.2 acc) (Ok []) keyed;
  Ok (r.*2).

Definition sort_key (o : order) (c : Container) : result pyval :=
  match o with
  | by_image => Ok (opt_json (c_image c))
  | by_state => Ok (opt_json (c_state c))
  | by_update_available => update_available c
  | by_name => Ok (opt_json (c_name c))
  end.

(** The [containers] property of a host. *)
Definition containers (h : Host) : result (list Container) :=
  sorted (sort_key (container_order h)) (_containers h).

(** The [hosts] dict of [get_container_status], keyed by host id, in
    insertion order. *)
Definition hosts_dict : Type := list (option string * Host).

(** [k in hosts] *)
Definition hosts_has (hosts : hosts_dict) (k : option string) : bool :=
  bool_decide (k ∈ hosts.*1).

(** [hosts[k] = h] *)
Fixpoint hosts_setitem (hosts : hosts_dict) (k : option string) (h : Host) : hosts_dict :=
  match hosts with
  | [] => [(k, h)]
  | (k', h') :: hosts' =>
      if bool_decide (k' = k) then (k, h) :: hosts'
      else (k', h') :: hosts_setitem hosts' k h
  end.

(** [hosts[k].add_container(container)] *)
Fixpoint hosts_add_container (hosts : hosts_dict) (k : option string)
    (container : Container) : hosts_dict :=
  match hosts with
  | [] => []
  | (k', h') :: hosts' =>
      if bool_decide (k' = k) then (k', add_container h' container) :: hosts'
      else (k', h') :: hosts_add_container hosts' k container
  end.

(** ** The remote client *)

Inductive request : Type :=
  | GET (path : string)
  | POST (path : string) (query : list (string * json)).

#[global] Instance request_eq_dec : EqDecision request.
Proof. solve_decision. Defined.

(** What the program writes to standard output: a line of text, a line
    ending in the rendering of a dict, or [json.dumps] of a dict. *)
Inductive output : Type :=
  | Line (s : string)
  | LineDict (s : string) (body : gmap string json)
  | JsonDump (body : gmap string json).

Record world : Type := World {
  requests : list request;
  stdout : list output
}.

(** A computation that sends requests, prints and may raise. *)
Definition io (A : Type) : Type := world → world * result A.

#[global] Instance io_ret : MRet io := λ A a w, (w, Ok a).
#[global] Instance io_bind : MBind io := λ A B k m w,
  match m w with
  | (w', Ok a) => k a w'
  | (w', Raise e) => (w', Raise e)
  end.

Definition lift {A} (r : result A) : io A := λ w, (w, r).

Definition send (r : request) : io unit :=
  λ w, (World (requests w ++ [r]) (stdout w), Ok tt).

Definition print (o : output) : io unit :=
  λ w, (World (requests w) (stdout w ++ [o]), Ok tt).

(** [for x in l: ...] over a loop state [s]; an exception leaves the loop. *)
Fixpoint for_each {A S} (l : list A) (body : A → S → io S) (s : S) : io S :=
  match l with
  | [] => mret s
  | x :: l' => s' ← body x s; for_each l' body s'
  end.

(** The answer of the service to a request: a decoded body, or a non-2xx
    status with its decoded error body. *)
Inductive response (A : Type) : Type :=
  | Reply (body : A)
  | HttpError (body : gmap string json).

Arguments Reply {A} body.
Arguments HttpError {A} body.

(** The service behind [APIClient], endpoint by endpoint. The summary is
    its [containers_with_updates] list, [None] when the key is missing. *)
Record APIClient : Type := {
  ep_hosts : response (list raw_host);
  ep_summary : response (option (list string));
  ep_containers : response (list raw_container);
  ep_get : string → response (gmap string json);
  ep_post : string → response (gmap string json)
}.

(** [r = session.get(url); r.raise_for_status(); return r.json()] *)
Definition call {A} (r : request) (resp : response A) : io A :=
  _ ← send r;
  match resp with
  | Reply body => mret body
  | HttpError body => lift (Raise (HTTPError body))
  end.

(** ** Update reconciliation ([get_container_status]) *)

Record Args : Type := {
  a_host : option string;
  a_container : option string;
  a_image : option string;
  a_updates_only : bool;
  a_order : order;
  a_json : bool
}.

(** The first loop: the hosts kept by [--host]. *)
Definition select_hosts (args : Args) (data : list raw_host) : hosts_dict :=
  foldl (fun hosts host =>
           if negb (str_truthy (a_host args)) || bool_decide (rh_name host = a_host args)
           then hosts_setitem hosts (rh_id host)
                  (set_container_order (Host_init host) (a_order args))
           else hosts)
        [] data.

Definition update_status_path (container : Container) : string :=
  "hosts/" +:+ opt_str (c_host_id container) +:+ "/containers/"
  +:+ opt_str (c_id container) +:+ "/update-status".

(** The body of the second loop, for one raw container record. *)
Definition reconcile_one (clock : datetime) (client : APIClient) (args : Args)
    (updates : option (list string)) (c : raw_container) (hosts : hosts_dict)
    : io hosts_dict :=
  container ← lift (Container_init clock c);
  if hosts_has hosts (c_host_id container) then
    matched ← lift (_container_match container (a_container args) (a_image args));
    if (matched : bool) then
      container ←
        (if bool_decide (container_id container ∈ default [] updates) then
           update_status ← call (GET (update_status_path container))
                                (ep_get client (update_status_path container));
           lift (set_update_status clock container (PJson <$> update_status))
         else mret container);
      skip ← (if a_updates_only args then
                ua ← lift (update_available container);
                mret (negb (truthy ua))
              else mret false);
      if (skip : bool) then mret hosts
      else mret (hosts_add_container hosts (c_host_id container) container)
    else mret hosts
  else mret hosts.

Definition get_container_status (clock : datetime) (client : APIClient) (args : Args)
    : io hosts_dict :=
  data ← call (GET "hosts") (ep_hosts client);
  let hosts := select_hosts args data in
  updates ← call (GET "updates/summary") (ep_summary client);
  data ← call (GET "containers") (ep_containers client);
  for_each data (reconcile_one clock client args updates) hosts.

(** ** Mutating actions *)

(** The [else] branch shared by [execute_update] and [execute_restart]:
    a 2xx reply is reported by its [status]. *)
Definition report_result (quiet : bool) (result : gmap string json)
    : io (gmap string json) :=
  status ← lift (subscript result "status");
  _ ← (if json_eq_str status "success" then
         if quiet then mret tt
         else message ← lift (subscript result "message");
              print (Line ("✅ " +:+ json_str message))
       else
         if quiet then mret tt
         else message ← lift (subscript result "message");
              print (Line ("❌ " +:+ json_str message)));
  mret result.

Definition execute_update_path (host_id container_id : option string) : string :=
  "hosts/" +:+ opt_str host_id +:+ "/containers/" +:+ opt_str container_id
  +:+ "/execute-update".

Definition execute_update (client : APIClient) (host_id container_id : option string)
    (quiet : bool) : io (gmap string json) :=
  let path := execute_update_path host_id container_id in
  _ ← send (POST path [("force", JBool true)]);
  match ep_post client path with
  | HttpError error =>
      detail ← lift (subscript error "detail");
      _ ← (if json_eq_str detail "No update available for this container" then
             if quiet then mret tt
             else print (Line ("✅ " +:+ json_str detail))
           else
             if quiet then mret tt
             else print (Line ("❌ HTTP exception: " +:+ json_str detail)));
      mret error
  | Reply result => report_result quiet result
  end.

Definition execute_restart_path (host_id container_id : option string) : string :=
  "/hosts/" +:+ opt_str host_id +:+ "/containers/" +:+ opt_str container_id
  +:+ "/restart".

Definition execute_restart (client : APIClient) (host_id container_id : option string)
    (quiet : bool) : io (gmap string json) :=
  let path := execute_restart_path host_id container_id in
  _ ← send (POST path []);
  match ep_post client path with
  | HttpError error =>
      _ ← (if quiet then mret tt else print (LineDict "❌ " error));
      mret error
  | Reply result => report_result quiet result
  end.

(** ** The dispatchers of [main] *)

(** The loop that the [--update] and [--restart] branches share:
    [[
      for host in hosts.values():
          for container in host.containers:
              if not args.json: print(f"{announce}{container.name} on {host.name}")
              result = action(client, host.id, container.id, quiet=args.json)
              if args.json:
                  print(json.dumps(result, indent=4, sort_keys=True))
                  sys.exit()
    ]] *)
Definition dispatch (announce : string)
    (action : option string → option string → bool → io (gmap string json))
    (args : Args) (hosts : hosts_dict) : io unit :=
  for_each hosts (fun kh (_ : unit) =>
    let host := kh.2 in
    cs ← lift (containers host);
    for_each cs (fun container (_ : unit) =>
      _ ← (if negb (a_json args) then
             print (Line (announce +:+ opt_str (c_name container) +:+ " on "
                          +:+ opt_str (h_name host)))
           else mret tt);
      result ← action (h_id host) (c_id container) (a_json args);
      if a_json args then
        _ ← print (JsonDump result);
        lift (Raise SystemExit)
      else mret tt) tt) tt.

(** [elif args.update:] *)
Definition main_update (clock : datetime) (client : APIClient) (args : Args) : io unit :=
  hosts ← get_container_status clock client args;
  dispatch "⬆️  Executing update for container " (execute_update client) args hosts.

(** [elif args.restart:] *)
Definition main_restart (clock : datetime) (client : APIClient) (args : Args) : io unit :=
  hosts ← get_container_status clock client args;
  dispatch "♻️  Restarting container " (execute_restart client) args hosts.

End Model.

Arguments Reply {A} body.
Arguments HttpError {A} body.

(** ** Vocabulary for the reconciliation properties *)

(** The container passes the host filter and the name/image filter: it is
    in the working set of [get_container_status]. *)
Definition in_working_set (hosts : hosts_dict) (args : Args) (c : Container) : bool :=
  hosts_has hosts (c_host_id c)
  && match _container_match c (a_container args) (a_image args) with
     | Ok matched => matched
     | Raise _ => false
     end.

(** The composite id of the container is listed in the update summary. *)
Definition flagged (updates : option (list string)) (c : Container) : bool :=
  bool_decide (container_id c ∈ default [] updates).

(** The containers for which a detailed status is fetched. *)
Definition fetches_detail (hosts : hosts_dict) (args : Args)
    (updates : option (list string)) (c : Container) : bool :=
  in_working_set hosts args c && flagged updates c.

Definition detail_request (c : Container) : request :=
  GET (update_status_path c).

(** Every container held by a host and not flagged in the summary still
    has the default update status. *)
Definition unflagged_keep_default (updates : option (list string))
    (hosts : hosts_dict) : Prop :=
  ∀ kh c, kh ∈ hosts → c ∈ _containers kh.2 →
          flagged updates c = false → _update_status c = default_update_status.

(** ** Vocabulary for the dispatch properties *)

(** The (host, container) pairs in the order the two nested loops of a
    dispatcher visit them, when every host's containers can be sorted. *)
Fixpoint all_targets (hosts : hosts_dict) : result (list (Host * Container)) :=
  match hosts with
  | [] => Ok []
  | (_, host) :: hosts' =>
      cs ← containers host;
      rest ← all_targets hosts';
      Ok (((λ c, (host, c)) <$> cs) ++ rest)
  end.



(** A reply shaped as the specification describes it (section 4.5): a
    result with [status] and [message], or an error body with [detail]. *)
Definition well_formed_reply (r : response (gmap string json)) : Prop :=
  match r with
  | Reply result => is_Some (result !! "status") ∧ is_Some (result !! "message")
  | HttpError error => is_Some (error !! "detail")
  end.


(** The two mutating dispatchers of [main], after [get_container_status]. *)
Inductive mutation : Type := Update | Restart.

Definition dispatcher (m : mutation) (client : APIClient) (args : Args)
    (hosts : hosts_dict) : io unit :=
  match m with
  | Update =>
      dispatch "⬆️  Executing update for container " (execute_update client) args hosts
  | Restart =>
      dispatch "♻️  Restarting container " (execute_restart client) args hosts
  end.

Definition action_of (m : mutation) (client : APIClient)
    : option string → option string → bool → io (gmap string json) :=
  match m with
  | Update => execute_update client
  | Restart => execute_restart client
  end.


(** [w'] is [w] with the requests [reqs] sent and [outs] printed since. *)
Definition extends (w w' : world) (reqs : list request) (outs : list output) : Prop :=
  requests w' = requests w ++ reqs ∧ stdout w' = stdout w ++ outs.

(** ** Worked inputs *)

(** 2024-01-04 00:00:00, the clock of the examples. *)
Definition clock0 : datetime := Datetime 1704326400000000.

Definition raw0 : raw_container :=
  {| r_id := Some "abc123"; r_name := Some "web"; r_host_name := Some "alpha";
     r_host_id := Some "h1"; r_image := Some "library/nginx:1.25";
     r_state := Some "running"; r_ports := None;
     r_created := Some "2024-01-01T00:00:00.123456789Z";
     r_started := Some "2024-01-03T12:00:00Z";
     r_healthy := None;
     r_labels := Some ∅;
     r_env := Some [("PATH", "/usr/bin"); ("NGINX_VERSION", "1.25.3")] |}.

(** A container named after a non-allow-listed name. *)
Definition web_container : Container :=
  {| c_id := Some "abc123"; c_name := Some "www1"; c_host_name := Some "alpha";
     c_host_id := Some "h1"; c_host := None; c_image := Some "library/nginx:1.25";
     c_state := Some "running"; c_ports := EmptyString;
     container_id := "h1:abc123";
     created := clock0; started := clock0; healthy := None;
     _update_status := default_update_status; _version := None |}.

(** What [Container(raw0)] builds at [clock0]. *)
Definition container0 : Container :=
  {| c_id := Some "abc123"; c_name := Some "web"; c_host_name := Some "alpha";
     c_host_id := Some "h1"; c_host := None; c_image := Some "library/nginx:1.25";
     c_state := Some "running"; c_ports := EmptyString;
     container_id := "h1:abc123";
     created := Datetime 1704067200123456;
     started := Datetime 1704067200123456;
     healthy := None;
     _update_status := default_update_status;
     _version := Some "1.25.3" |}.

(** A record whose image reference has no tag, and one without labels. *)
Definition raw_untagged : raw_container :=
  {| r_id := Some "def456"; r_name := Some "db"; r_host_name := Some "alpha";
     r_host_id := Some "h1"; r_image := Some "postgres";
     r_state := Some "running"; r_ports := None;
     r_created := Some "2024-01-01T00:00:00Z"; r_started := None;
     r_healthy := None;
     r_labels := Some {[ "org.opencontainers.image.version" := "16.1" ]};
     r_env := Some [("PG_VERSION", "16.1")] |}.

Definition raw_unlabelled : raw_container :=
  {| r_id := Some "def456"; r_name := Some "db"; r_host_name := Some "alpha";
     r_host_id := Some "h1"; r_image := Some "postgres:16";
     r_state := Some "running"; r_ports := None;
     r_created := Some "2024-01-01T00:00:00Z"; r_started := None;
     r_healthy := None;
     r_labels := None;
     r_env := Some [("PG_VERSION", "16.1")] |}.

(** A detailed update status as the service sends it, checked three days
    before [clock0]. *)
Definition status0 : gmap string json :=
  {[ "update_available" := JBool true;
     "current_version" := JNull;
     "latest_version" := JStr "1.26.0";
     "last_checked_at" := JStr "2024-01-01T00:00:00Z" ]}.

(** The same status without its [current_version] entry. *)
Definition status_without_current_version : gmap string json :=
  {[ "update_available" := JBool true;
     "latest_version" := JStr "1.26.0";
     "last_checked_at" := JStr "2024-01-01T00:00:00Z" ]}.

(** [container0] after [status0] is merged at [clock0]. *)
Definition merged0 : Container :=
  with_update_status container0
    {[ "update_available" := PJson (JBool true);
       "current_version" := PJson (JStr "1.25.3");
       "latest_version" := PJson (JStr "1.26.0");
       "last_checked_at" := PDatetime (Datetime 1704067200000000);
       "last_checked" := PJson (JStr "3 days ago") ]}.

(** A second record on the same host, not listed in the summary. *)
Definition raw1 : raw_container :=
  {| r_id := Some "def456"; r_name := Some "db"; r_host_name := Some "alpha";
     r_host_id := Some "h1"; r_image := Some "postgres:16";
     r_state := Some "running"; r_ports := None;
     r_created := Some "2023-12-31T08:30:00Z"; r_started := None;
     r_healthy := None;
     r_labels := Some ∅;
     r_env := Some [("PG_VERSION", "16.1")] |}.

(** A service with two hosts and two containers on the first; the update
    summary lists the web container only. An update of the web container
    is refused with "No update available for this container"; every other
    mutation succeeds. *)
Definition client0 : APIClient :=
  {| ep_hosts := Reply [ {| rh_id := Some "h1"; rh_name := Some "alpha" |};
                         {| rh_id := Some "h2"; rh_name := Some "beta" |} ];
     ep_summary := Reply (Some ["h1:abc123"]);
     ep_containers := Reply [raw0; raw1];
     ep_get := λ _, Reply status0;
     ep_post := λ path,
       if String.eqb path "hosts/h1/containers/abc123/execute-update"
       then HttpError {[ "detail" := JStr "No update available for this container" ]}
       else Reply {[ "status" := JStr "success"; "message" := JStr "done" ]} |}.

Definition args0 : Args :=
  {| a_host := None; a_container := None; a_image := None;
     a_updates_only := false; a_order := by_name; a_json := true |}.

Definition world0 : world := World [] [].

(** What [get_container_status] leaves and returns for [client0]. *)
Definition world1 : world :=
  Eval vm_compute in (get_container_status iso_sample clock0 client0 args0 world0).1.

Definition hosts1 : hosts_dict :=
  Eval vm_compute in
    match (get_container_status iso_sample clock0 client0 args0 world0).2 with
    | Ok hosts => hosts
    | Raise _ => []
    end.

Definition targets1 : list (Host * Container) :=
  Eval vm_compute in
    match all_targets hosts1 with
    | Ok targets => targets
    | Raise _ => []
    end.

(** ** Credentials ([resolve_credentials]) *)

(** Where credentials can come from: the two environment variables as
    [os.getenv] returns them; the [url] and [key] options of the [api]
    section of [~/.config/dockmon/config.ini] as [config.get] returns them
    with [fallback=None] ([config_ini] is [None] when the file does not
    exist); and what [get_docker_secret] returns for the two secrets. *)
Record credential_sources : Type := {
  env_api_key : option string;
  env_api_url : option string;
  config_ini : option (option string * option string);
  secret_api_key : option string;
  secret_api_url : option string
}.

(** [get_config_file()]: the pair [(url, key)]. *)
Definition get_config_file (src : credential_sources) : option string * option string :=
  match config_ini src with
  | None => (None, None)
  | Some (url, key) => (url, key)
  end.

(** [resolve_credentials()]: [Some (api_url, api_key)], or [None] when it
    prints the error to standard error and calls [sys.exit(1)]. *)
Definition resolve_credentials (src : credential_sources) : option (string * string) :=
  let api_key := env_api_key src in
  let api_url := env_api_url src in
  let '(api_url, api_key) :=
    if negb (str_truthy api_key) then get_config_file src else (api_url, api_key) in
  let '(api_url, api_key) :=
    if negb (str_truthy api_key) then (secret_api_url src, secret_api_key src)
    else (api_url, api_key) in
  if negb (str_truthy api_key) || negb (str_truthy api_url) then None
  else Some (default EmptyString api_url, default EmptyString api_key).

(** ** Request URLs ([APIClient]) *)

(** [s.lstrip(c)] for a one-character set. *)
Fixpoint lstrip (c : ascii) (s : string) : string :=
  match s with
  | EmptyString => EmptyString
  | String a s' => if Ascii.eqb a c then lstrip c s' else s
  end.

(** What [APIClient.__init__] keeps: the base URL without trailing
    slashes and the authorization header of the session. *)
Record session : Type := {
  base_url : string;
  authorization : string
}.

Definition APIClient_init (base_url api_key : string) : session :=
  {| base_url := rstrip "/" base_url;
     authorization := "Bearer " +:+ api_key |}.

(** [f"{self.base_url}/{path.lstrip('/')}"], the URL of [get] and [post]. *)
Definition request_url (client : session) (path : string) : string :=
  base_url client +:+ "/" +:+ lstrip "/" path.

(** [c] repeated [n] times. *)
Fixpoint repeat_char (c : ascii) (n : nat) : string :=
  match n with
  | O => EmptyString
  | S n' => String c (repeat_char c n')
  end.

(** The last character of a string, if any. *)
Fixpoint last_char (s : string) : option ascii :=
  match s with
  | EmptyString => None
  | String a EmptyString => Some a
  | String _ s' => last_char s'
  end.

Definition first_char (s : string) : option ascii :=
  match s with
  | EmptyString => None
  | String a _ => Some a
  end.

(** The first host of [hosts1], with its two containers. *)
Definition host1 : Host :=
  Eval vm_compute in
    match hosts1 with
    | (_, h) :: _ => h
    | [] => Host_init {| rh_id := None; rh_name := None |}
    end.

(** ** Presentation *)

(** The ANSI colour helpers of class [C]. *)
Module C.
Definition ESC : string := String "027" EmptyString.
Definition RESET : string := ESC +:+ "[0m".
Definition BOLD : string := ESC +:+ "[1m".
Definition UNDERLINE : string := ESC +:+ "[4m".
Definition DIM : string := ESC +:+ "[2m".
Definition RED : string := ESC +:+ "[31m".
Definition GREEN : string := ESC +:+ "[32m".
Definition YELLOW : string := ESC +:+ "[33m".
Definition BLUE : string := ESC +:+ "[34m".
Definition CYAN : string := ESC +:+ "[36m".
Definition GRAY : string := ESC +:+ "[90m".
End C.

(** [len(s)]: the number of code points of a string held as UTF-8, that
    is, of its bytes that are not continuation bytes. *)
Definition is_continuation (a : ascii) : bool :=
  let n := Z.of_N (N_of_ascii a) in (128 <=? n) && (n <? 192).

Fixpoint py_len (s : string) : Z :=
  match s with
  | EmptyString => 0
  | String a s' => (if is_continuation a then 0 else 1) + py_len s'
  end.

(** [len(x)] where [x] may be [None]. *)
Definition len_opt (o : option string) : result Z :=
  match o with
  | Some s => Ok (py_len s)
  | None => Raise TypeError
  end.

(** [f"{s:<{width}}"]: [s] padded with blanks on the right. *)
Definition ljust (width : Z) (s : string) : string :=
  s +:+ repeat_char " " (Z.to_nat (width - py_len s)).

(** [f"{x:<{width}}"] where [x] may be [None], which has no such format. *)
Definition ljust_opt (width : Z) (o : option string) : result string :=
  match o with
  | Some s => Ok (ljust width s)
  | None => Raise TypeError
  end.

(** [s.lower()], on the letters A-Z. The three comparisons of
    [color_state] are with words of the letters a-z except k, which no
    character outside A-Z lowers to. *)
Definition lower_char (a : ascii) : ascii :=
  let n := N_of_ascii a in
  if ((65 <=? n) && (n <=? 90))%N then ascii_of_N (n + 32) else a.

Fixpoint lower (s : string) : string :=
  match s with
  | EmptyString => EmptyString
  | String a s' => String (lower_char a) (lower s')
  end.

Definition color_state (state : option string) : result string :=
  match state with
  | None => Raise AttributeError
  | Some state =>
      let s := lower state in
      if String.eqb s "running" then Ok (C.GREEN +:+ "🟢 running" +:+ C.RESET)
      else if String.eqb s "exited" then Ok (C.RED +:+ "🔴 exited" +:+ C.RESET)
      else if String.eqb s "paused" then Ok (C.YELLOW +:+ "🟡 paused" +:+ C.RESET)
      else Ok (C.GRAY +:+ "⚪ " +:+ state +:+ C.RESET)
  end.

Definition color_version (version : string) : string :=
  if String.eqb version "N/A" then C.YELLOW +:+ version +:+ C.RESET
  else C.BLUE +:+ version +:+ C.RESET.

(** [max(...)] of a non-empty sequence. *)
Definition max_list (l : list Z) : Z :=
  match l with
  | [] => 0
  | x :: l' => foldl Z.max x l'
  end.

(** The four counters of [cli_format_containers]. *)
Record counters : Type := {
  tot : Z;
  uas : Z;
  run : Z;
  sto : Z
}.

(** What [Container.as_dict()] and [Host.as_dict()] build. *)
Record container_view : Type := {
  v_id : option string;
  v_container_id : string;
  v_name : option string;
  v_host : host_summary;
  v_update_status : gmap string pyval;
  v_version : string;
  v_state : option string;
  v_ports : string;
  v_image : option string;
  v_created : string;
  v_started : string;
  v_running_for : string
}.

Record host_view : Type := {
  hv_id : option string;
  hv_name : option string;
  hv_containers : list container_view
}.

(** What [json_format] hands to [json.dumps]. *)
Inductive json_doc : Type :=
  | DocHosts (hosts : list host_view)
  | DocMessage (message : string).

(** The flags of the command line that choose the branch of [main]. *)
Record Modes : Type := {
  m_check_updates : bool;
  m_update : bool;
  m_restart : bool
}.

Section Presentation.

(** [str(t)] and [t.strftime("%Y-%m-%d %H:%M:%S")] of the library. *)
Variable datetime_str : datetime → string.
Variable strftime : datetime → string.

(** [str(x)] of a value of a status dict. *)
Definition pyval_str (v : pyval) : string :=
  match v with
  | PJson j => json_str j
  | PDatetime t => datetime_str t
  end.

Definition color_update (update : gmap string pyval) : result string :=
  ua ← subscript update "update_available";
  if truthy ua then
    latest ← subscript update "latest_version";
    Ok (C.YELLOW +:+ ("⬆️ update to " +:+ pyval_str latest) +:+ C.RESET)
  else Ok (C.GREEN +:+ "✅ up to date" +:+ C.RESET).

(** One turn of the loop of [cli_format_containers]. *)
Definition cli_format_row (name_w image_w status_w version_w : Z) (c : Container)
    (n : counters) : io counters :=
  let name := c_name c in
  let image := c_image c in
  let status := c_state c in
  let update := _update_status c in
  let tot := tot n + 1 in
  ua ← lift (subscript update "update_available");
  let uas := if truthy ua then uas n + 1 else uas n in
  let run := if bool_decide (status = Some "running") then run n + 1 else run n in
  let sto := if bool_decide (status = Some "exited") then sto n + 1 else sto n in
  name_cell ← lift (ljust_opt name_w name);
  image_cell ← lift (ljust_opt image_w image);
  state_text ← lift (color_state status);
  update_text ← lift (color_update update);
  _ ← print (Line ((C.BOLD +:+ name_cell +:+ C.RESET)
                   +:+ (C.DIM +:+ image_cell +:+ C.RESET)
                   +:+ ljust status_w state_text
                   +:+ ljust version_w (color_version (version c))
                   +:+ update_text));
  mret {| tot := tot; uas := uas; run := run; sto := sto |}.

(** [cli_format_containers(containers)]; [columns] is the terminal width
    that [shutil.get_terminal_size] reports. *)
Definition cli_format_containers (columns : Z) (containers : list Container) : io unit :=
  match containers with
  | [] =>
      _ ← print (Line (C.YELLOW +:+ "⚠️  No containers found." +:+ C.RESET));
      print (Line EmptyString)
  | _ =>
      let width := columns in
      name_lens ← lift (mapM (λ c, len_opt (c_name c)) containers);
      let name_w := Z.max (max_list name_lens) 9 + 2 in
      image_lens ← lift (mapM (λ c, len_opt (c_image c)) containers);
      let image_w := max_list image_lens + 2 in
      let version_w :=
        Z.max (max_list ((λ c, py_len (version c)) <$> containers)) 9 + 11 in
      let status_w := 25 in
      _ ← print (Line (C.BOLD +:+ C.CYAN +:+ ljust name_w "CONTAINER"
                       +:+ ljust image_w "IMAGE"
                       +:+ ljust (status_w - 8) "STATUS"
                       +:+ ljust (version_w - 9) "VERSION"
                       +:+ "UPDATE AVAILABLE" +:+ C.RESET));
      _ ← print (Line (C.GRAY
                       +:+ repeat_char "-"
                             (Z.to_nat (Z.min width
                                (name_w + image_w + status_w + version_w + 20)))
                       +:+ C.RESET));
      n ← for_each containers (cli_format_row name_w image_w status_w version_w)
             {| tot := 0; uas := 0; run := 0; sto := 0 |};
      _ ← print (Line EmptyString);
      let run_color := if run n =? 0 then C.RED else C.GREEN in
      let sto_color := if sto n =? 0 then C.GRAY else C.RED in
      _ ← print (Line ((C.BOLD +:+ fmt_int (tot n) +:+ C.RESET +:+ " containers configured ")
                       +:+ (run_color +:+ fmt_int (run n) +:+ C.RESET +:+ " containers running and ")
                       +:+ (sto_color +:+ fmt_int (sto n) +:+ C.RESET +:+ " containers stopped. ")
                       +:+ (C.YELLOW +:+ fmt_int (uas n) +:+ C.RESET
                            +:+ " containers with update available")));
      print (Line EmptyString)
  end.

(** [cli_format_host(host)]: the text ends in a line feed of its own. *)
Definition cli_format_host (host : Host) : io unit :=
  print (Line (C.BOLD +:+ "Docker host: " +:+ C.RED +:+ opt_str (h_name host)
               +:+ C.RESET +:+ String "010" EmptyString)).

(** *** Structured output *)

(** [update_status_dict()]: the status dict of the container, in which a
    set [last_checked_at] is replaced by its formatted text. The dict
    returned is the container's own, so the container is returned as it
    is afterwards. A [last_checked_at] that is set but is no [datetime]
    has no [strftime]. *)
Definition update_status_dict (c : Container)
    : result (gmap string pyval * Container) :=
  let ret := _update_status c in
  if truthy (dict_get (_update_status c) "last_checked_at") then
    match dict_get (_update_status c) "last_checked_at" with
    | PDatetime t =>
        let ret := <["last_checked_at" := PJson (JStr (strftime t))]> ret in
        Ok (ret, with_update_status c ret)
    | PJson _ => Raise AttributeError
    end
  else Ok (ret, c).

(** [Container.as_dict()]: the dict built, and the container afterwards. *)
Definition Container_as_dict (clock : datetime) (c : Container)
    : result (container_view * Container) :=
  host ← match c_host c with
         | Some host => Ok host
         | None => Raise AttributeError
         end;
  '(update_status, c') ← update_status_dict c;
  Ok ({| v_id := c_id c;
         v_container_id := container_id c;
         v_name := c_name c;
         v_host := host;
         v_update_status := update_status;
         v_version := version c;
         v_state := c_state c;
         v_ports := c_ports c;
         v_image := c_image c;
         v_created := strftime (created c);
         v_started := strftime (started c);
         v_running_for := human_time_diff clock (started c) None |}, c').

(** The container after [as_dict()] has run on it. *)
Definition after_as_dict (clock : datetime) (c : Container) : Container :=
  match Container_as_dict clock c with
  | Ok (_, c') => c'
  | Raise _ => c
  end.

(** [Host.as_dict()]: the dict built, and the host afterwards (its
    containers are the objects [as_dict()] has run on). *)
Definition Host_as_dict (clock : datetime) (h : Host) : result (host_view * Host) :=
  cs ← containers h;
  views ← mapM (λ c, vc ← Container_as_dict clock c; Ok vc.1) cs;
  Ok ({| hv_id := h_id h; hv_name := h_name h; hv_containers := views |},
      {| h_id := h_id h; h_name := h_name h;
         _containers := after_as_dict clock <$> _containers h;
         container_order := container_order h |}).

(** [json.dumps] of the library on a document; a [datetime] is not
    serializable. *)
Variable json_dumps : json_doc → string.

Definition is_json (v : pyval) : bool :=
  match v with
  | PJson _ => true
  | PDatetime _ => false
  end.

Definition serializable (view : container_view) : bool :=
  bool_decide (map_Forall (λ _ v, is_json v = true) (v_update_status view)).

Definition dumps_hosts (out : list host_view) : result string :=
  if forallb (λ hv, forallb serializable (hv_containers hv)) out
  then Ok (json_dumps (DocHosts out))
  else Raise TypeError.

(** [[host.as_dict() for host in hosts.values() if len(host.containers) > 0]] *)
Fixpoint hosts_as_dicts (clock : datetime) (hosts : hosts_dict)
    : result (list host_view) :=
  match hosts with
  | [] => Ok []
  | (_, host) :: hosts' =>
      cs ← containers host;
      if (0 <? Z.of_nat (length cs)) then
        '(view, _) ← Host_as_dict clock host;
        rest ← hosts_as_dicts clock hosts';
        Ok (view :: rest)
      else hosts_as_dicts clock hosts'
  end.

Definition json_format (clock : datetime) (hosts : hosts_dict) : io unit :=
  out ← lift (hosts_as_dicts clock hosts);
  match out with
  | _ :: _ =>
      text ← lift (dumps_hosts out);
      print (Line text)
  | [] =>
      print (Line (json_dumps (DocMessage "No containers matching the filter found")))
  end.

(** *** The check-updates branch and [main] *)

Definition check_update_path (host_id container_id : option string) : string :=
  "hosts/" +:+ opt_str host_id +:+ "/containers/" +:+ opt_str container_id
  +:+ "/check-update".

(** [check_updates(client, host_id, container_id)]: the reply is dropped. *)
Definition check_updates (client : APIClient) (host_id container_id : option string)
    : io unit :=
  if str_truthy host_id && str_truthy container_id then
    _ ← call (POST (check_update_path host_id container_id) [])
             (ep_post client (check_update_path host_id container_id));
    mret tt
  else
    _ ← call (POST "updates/check-all" []) (ep_post client "updates/check-all");
    mret tt.

(** The loop of the second branch of [main]. *)
Definition check_loop (client : APIClient) (args : Args) (hosts : hosts_dict) : io unit :=
  for_each hosts (fun kh (_ : unit) =>
    let host := kh.2 in
    cs ← lift (containers host);
    for_each cs (fun container (_ : unit) =>
      _ ← (if negb (a_json args) then
             print (Line ("Checking update for host " +:+ opt_str (h_name host)
                          +:+ " - " +:+ opt_str (h_id host)
                          +:+ " container " +:+ opt_str (c_name container)
                          +:+ " - " +:+ opt_str (c_id container)))
           else mret tt);
      check_updates client (h_id host) (c_id container)) tt) tt.

(** The last branch of [main]: show what was reconciled. *)
Definition display (clock : datetime) (columns : Z) (args : Args) (hosts : hosts_dict)
    : io unit :=
  if a_json args then json_format clock hosts
  else
    for_each hosts (fun kh (_ : unit) =>
      _ ← cli_format_host kh.2;
      cs ← lift (containers kh.2);
      cli_format_containers columns cs) tt.

(** [main()] once the arguments are parsed and the client is built. *)
Definition main (fromisoformat : string → option datetime) (clock : datetime)
    (columns : Z) (client : APIClient) (modes : Modes) (args : Args) : io unit :=
  if m_check_updates modes && negb (str_truthy (a_host args))
     && negb (str_truthy (a_container args)) then
    check_updates client None None
  else if m_check_updates modes then
    hosts ← get_container_status fromisoformat clock client args;
    check_loop client args hosts
  else if m_update modes then
    main_update fromisoformat clock client args
  else if m_restart modes then
    main_restart fromisoformat clock client args
  else
    hosts ← get_container_status fromisoformat clock client args;
    display clock columns args hosts.

End Presentation.

(** ** Vocabulary for the ordering properties *)

(** No key is strictly less than the key before it. *)
Fixpoint ascending (keys : list pyval) : Prop :=
  match keys with
  | k1 :: (k2 :: _) as rest => py_lt k2 k1 = Ok false ∧ ascending rest
  | _ => True
  end.

(** The insertion loop of [sorted], from a given sorted prefix. *)
Definition insert_all {A} (acc : result (list (pyval * A))) (keyed : list (pyval * A))
    : result (list (pyval * A)) :=
  foldl (fun acc kx => acc ← acc; insert_by kx.1 kx.2 acc) acc keyed.

(** The keys met when ordering by name: a string, or [None]. *)
Definition is_str (k : pyval) : Prop := ∃ s, k = PJson (JStr s).

Definition str_or_null (k : pyval) : Prop := is_str k ∨ k = PJson JNull.

(** ** Vocabulary for the parsing and wording properties *)

(** How many times [c] occurs in [s]. *)
Fixpoint count_char (c : ascii) (s : string) : nat :=
  match s with
  | EmptyString => O
  | String a s' => (if Ascii.eqb a c then 1 else 0) + count_char c s'
  end.






(** A container like [container0] whose record had no name, and a host
    holding both. *)
Definition nameless0 : Container :=
  {| c_id := Some "ghi789"; c_name := None; c_host_name := Some "alpha";
     c_host_id := Some "h1"; c_host := None; c_image := Some "library/nginx:1.25";
     c_state := Some "running"; c_ports := EmptyString;
     container_id := "h1:ghi789";
     created := clock0; started := clock0; healthy := None;
     _update_status := default_update_status; _version := None |}.

Definition host_with_nameless : Host :=
  {| h_id := Some "h1"; h_name := Some "alpha";
     _containers := [container0; nameless0]; container_order := by_name |}.


(** ** Vocabulary for what [get_container_status] hands back *)

(** A host of the table: filed under its own id, ordered as [--order]
    asks, and named as [--host] asks when that filter is set. *)
Definition host_ok (args : Args) (k : option string) (h : Host) : Prop :=
  h_id h = k
  ∧ container_order h = a_order args
  ∧ (str_truthy (a_host args) = true → h_name h = a_host args).

(** A container held by the host [h] filed under [k]: it belongs to that
    host, refers back to it, passed the name and image filters, and has
    an update available when [--updates-only] is set. *)
Definition container_ok (args : Args) (k : option string) (h : Host)
    (c : Container) : Prop :=
  c_host_id c = k
  ∧ c_host c = Some (as_summary_dict h)
  ∧ _container_match c (a_container args) (a_image args) = Ok true
  ∧ (a_updates_only args = true →
     ∃ ua, update_available c = Ok ua ∧ truthy ua = true).

Definition reconciled (args : Args) (hosts : hosts_dict) : Prop :=
  ∀ k h, (k, h) ∈ hosts →
         host_ok args k h ∧ ∀ c, c ∈ _containers h → container_ok args k h c.

Definition is_get (r : request) : Prop :=
  match r with
  | GET _ => True
  | POST _ _ => False
  end.

(** A computation that sends no request, whatever its outcome. *)
Definition silent {A} (m : io A) : Prop :=
  ∀ w, requests (m w).1 = requests w.

(** ** Vocabulary for the check-updates properties *)

(** The body of the inner loop of [check_loop], for one visited pair. *)
Definition check_step (client : APIClient) (args : Args)
    (target : Host * Container) (_ : unit) : io unit :=
  _ ← (if negb (a_json args) then
         print (Line ("Checking update for host " +:+ opt_str (h_name target.1)
                      +:+ " - " +:+ opt_str (h_id target.1)
                      +:+ " container " +:+ opt_str (c_name target.2)
                      +:+ " - " +:+ opt_str (c_id target.2)))
       else mret tt);
  check_updates client (h_id target.1) (c_id target.2).

(** The path [check_updates] posts to: the container's own check when both
    ids are set, the check of everything otherwise. *)
Definition check_path (host_id container_id : option string) : string :=
  if str_truthy host_id && str_truthy container_id
  then check_update_path host_id container_id
  else "updates/check-all".

Definition check_request (target : Host * Container) : request :=
  POST (check_path (h_id target.1) (c_id target.2)) [].

(** A request that asks the service to check for updates. *)
Definition is_check (r : request) : Prop :=
  match r with
  | POST path [] =>
      path = "updates/check-all" ∨ ∃ h c, path = check_update_path h c
  | _ => False
  end.

(** A computation all of whose requests, whatever its outcome, are of one
    kind. *)
Definition sends_only {A} (P : request → Prop) (m : io A) : Prop :=
  ∀ w, ∃ reqs, requests (m w).1 = requests w ++ reqs ∧ Forall P reqs.

(** A service that accepts every POST. *)
Definition client_accepting : APIClient :=
  {| ep_hosts := ep_hosts client0;
     ep_summary := ep_summary client0;
     ep_containers := ep_containers client0;
     ep_get := ep_get client0;
     ep_post := λ _, Reply {[ "status" := JStr "success" ]} |}.

(** Every mode at once, and none. *)
Definition modes_all : Modes :=
  {| m_check_updates := true; m_update := true; m_restart := true |}.

Definition modes_none : Modes :=
  {| m_check_updates := false; m_update := false; m_restart := false |}.

(** A filter on the name of a container. *)
Definition args_web : Args :=
  {| a_host := None; a_container := Some "web"; a_image := None;
     a_updates_only := false; a_order := by_name; a_json := true |}.

(** Sample renderings for the worked inputs: the seconds of the epoch for
    a [datetime], and a one-word summary for a document. *)
Definition strftime_sample (t : datetime) : string :=
  fmt_int (timestamp_us t / 1000000).

Definition dumps_sample (doc : json_doc) : string :=
  match doc with
  | DocHosts out => "hosts:" +:+ fmt_int (Z.of_nat (length out))
  | DocMessage message => "message:" +:+ message
  end.

(** What [json_format] builds for [hosts1]. *)
Definition views1 : list host_view :=
  Eval vm_compute in
    match hosts_as_dicts strftime_sample clock0 hosts1 with
    | Ok out => out
    | Raise _ => []
    end.

(** ** Vocabulary for the presentation properties *)

(** The status holds a [datetime] under [last_checked_at] at most: what
    the service sends is JSON, and the setter stores one [datetime]. *)
Definition from_service (c : Container) : Prop :=
  map_Forall (λ k v, is_json v = true ∨ k = "last_checked_at") (_update_status c).

#[global] Instance from_service_dec (c : Container) : Decision (from_service c).
Proof. unfold from_service. apply _. Defined.

(** What a host view shows of its host, and a host of itself. *)
Definition view_outline (hv : host_view) : option string * option string * nat :=
  (hv_id hv, hv_name hv, length (hv_containers hv)).

Definition host_outline (h : Host) : option string * option string * nat :=
  (h_id h, h_name h, length (_containers h)).

(** The document [json_format] prints for the views built. *)
Definition document_of (out : list host_view) : json_doc :=
  match out with
  | [] => DocMessage "No containers matching the filter found"
  | _ :: _ => DocHosts out
  end.

(** The hosts that hold at least one container. *)
Definition non_empty_hosts (hosts : hosts_dict) : list Host :=
  filter (λ h, (0 < length (_containers h))%nat) hosts.*2.

(** The counts of the summary line, read off the list of containers. *)
Definition count_state (state : string) (containers : list Container) : Z :=
  Z.of_nat (length (filter (λ c, c_state c = Some state) containers)).

Definition count_updates (containers : list Container) : Z :=
  Z.of_nat (length (filter (λ c, truthy (dict_get (_update_status c) "update_available")
                                 = true) containers)).

Definition counts_of (containers : list Container) : counters :=
  {| tot := Z.of_nat (length containers);
     uas := count_updates containers;
     run := count_state "running" containers;
     sto := count_state "exited" containers |}.

(** What a row of the table reads from a container. *)
Definition printable (c : Container) : Prop :=
  is_Some (c_name c) ∧ is_Some (c_image c) ∧ is_Some (c_state c)
  ∧ ∃ ua, _update_status c !! "update_available" = Some ua
          ∧ (truthy ua = true → is_Some (_update_status c !! "latest_version")).

(** The summary line for given counters. *)
Definition summary_line (n : counters) : output :=
  Line ((C.BOLD +:+ fmt_int (tot n) +:+ C.RESET +:+ " containers configured ")
        +:+ ((if run n =? 0 then C.RED else C.GREEN) +:+ fmt_int (run n) +:+ C.RESET
             +:+ " containers running and ")
        +:+ ((if sto n =? 0 then C.GRAY else C.RED) +:+ fmt_int (sto n) +:+ C.RESET
             +:+ " containers stopped. ")
        +:+ (C.YELLOW +:+ fmt_int (uas n) +:+ C.RESET
             +:+ " containers with update available")).

Definition add_counters (n m : counters) : counters :=
  {| tot := tot n + tot m; uas := uas n + uas m;
     run := run n + run m; sto := sto n + sto m |}.

(** * Properties *)

(** ** The relative-time formatter *)



Lemma counted_1 d unit n : n = 1 → counted d n unit = counted d 1 unit.
Proof. by intros ->. Qed.







(** ** The filter *)

Lemma prefix_app (sub s : string) :
  String.prefix sub s = true ↔ ∃ post, s = sub +:+ post.
Proof.
  revert sub. induction s as [|b s IH]; intros [|a sub]; simpl.
  - split; [by exists EmptyString|done].
  - split; [done|intros [post H]; discriminate].
  - split; [by exists (String b s)|done].
  - destruct (ascii_dec a b) as [->|Hne].
    + rewrite IH. split; intros [post H]; exists post; [by rewrite H|].
      by injection H.
    + split; [done|]. intros [post H]. injection H as H1 H2. congruence.
Qed.

Lemma str_in_nil (sub : string) :
  str_in sub EmptyString = String.prefix sub EmptyString.
Proof. unfold str_in. apply orb_false_r. Qed.

Lemma str_in_cons (sub : string) (b : ascii) (s : string) :
  str_in sub (String b s) = String.prefix sub (String b s) || str_in sub s.
Proof. reflexivity. Qed.

(** [str_in] is the substring relation. *)
Lemma str_in_spec (sub s : string) :
  str_in sub s = true ↔ ∃ pre post, s = pre +:+ sub +:+ post.
Proof.
  induction s as [|b s IH].
  - rewrite str_in_nil, prefix_app. split.
    + intros [post H]. by exists EmptyString, post.
    + intros [pre [post H]]. destruct pre; [by exists post|discriminate].
  - rewrite str_in_cons, orb_true_iff, IH, prefix_app. split.
    + intros [[post H]|[pre [post H]]].
      * by exists EmptyString, post.
      * exists (String b pre), post. simpl. by rewrite H.
    + intros [pre [post H]]. destruct pre as [|c pre]; simpl in H.
      * left. by exists post.
      * right. injection H as -> H. by exists pre, post.
Qed.

Lemma name_rule_spec_ok (c : Container) (n nf : string) :
  c_name c = Some n → name_rule c nf = Ok (name_rule_spec nf n).
Proof.
  intros Hn. unfold name_rule, name_rule_spec. rewrite Hn.
  change partial_match_allow_list with partial_names.
  destruct (decide (nf = n)) as [->|Hne].
  - by rewrite !(bool_decide_eq_true_2 _ eq_refl).
  - rewrite (bool_decide_eq_false_2 (Some nf = Some n)) by congruence.
    rewrite (bool_decide_eq_false_2 (nf = n)) by done. simpl.
    by destruct (bool_decide (nf ∈ partial_names)).
Qed.

(** C2. With no filter set every container matches. For a container whose
    name and image are strings, [_container_match] returns what the
    contract of the specification says: with both filters set, the image
    filter is a substring of the image and the name filter equals the name
    or is an allow-listed partial name contained in it; with one filter
    set, that rule alone. In particular the name filter "www1" matches
    exactly the containers named "www1". *)
Theorem container_match_contract (c : Container) (n i : string)
    (Hname : c_name c = Some n) (Himage : c_image c = Some i) :
  (∀ c' name_filter image_filter,
     str_truthy name_filter = false → str_truthy image_filter = false →
     _container_match c' name_filter image_filter = Ok true)
  ∧ (∀ name_filter image_filter,
       _container_match c name_filter image_filter
       = Ok (matches_spec n i name_filter image_filter))
  ∧ (∀ image_filter, str_truthy image_filter = false →
       (_container_match c (Some "www1") image_filter = Ok true ↔ n = "www1")).
Proof.
  split; [|split].
  - intros c' nf imf Hn Hi. unfold _container_match. by rewrite Hn, Hi.
  - intros nf imf. unfold _container_match, matches_spec.
    destruct (str_truthy nf), (str_truthy imf); simpl.
    + rewrite Himage. simpl. unfold image_rule_spec.
      destruct (str_in _ i); simpl; [by apply name_rule_spec_ok|done].
    + by apply name_rule_spec_ok.
    + by rewrite Himage.
    + done.
  - intros imf Hi. unfold _container_match. rewrite Hi. simpl.
    rewrite (name_rule_spec_ok c n) by done. unfold name_rule_spec.
    change (bool_decide ("www1" ∈ partial_match_allow_list)) with false.
    rewrite orb_false_r. split.
    + intros [= H]. by apply bool_decide_eq_true in H.
    + intros <-. by rewrite bool_decide_eq_true_2.
Qed.

Lemma container_match_contract_witness :
  c_name web_container = Some "www1"
  ∧ c_image web_container = Some "library/nginx:1.25"
  ∧ _container_match web_container (Some "www") (Some "nginx") = Ok true
  ∧ _container_match web_container (Some "www1") None = Ok true.
Proof.
  pose proof (container_match_contract web_container "www1" "library/nginx:1.25"
                eq_refl eq_refl) as (_ & Hspec & Hwww1).
  split; [reflexivity|]. split; [reflexivity|]. split.
  - rewrite Hspec. reflexivity.
  - apply Hwww1; reflexivity.
Defined.

(** ** Version inference *)

Lemma scan_env_app names env kv v :
  scan_env names (env ++ [kv]) v
  = if bool_decide (kv.1 ∈ names) then Some kv.2 else scan_env names env v.
Proof. unfold scan_env. by rewrite fold_left_app. Qed.

Lemma env_value_app env kv vars :
  env_value (env ++ [kv]) vars
  = if bool_decide (kv.1 ∈ vars) then Some kv.2 else env_value env vars.
Proof.
  unfold env_value. rewrite filter_app, filter_cons, filter_nil.
  case_bool_decide as Hin.
  - rewrite decide_True by done. by rewrite last_snoc.
  - rewrite decide_False by done. by rewrite app_nil_r.
Qed.

Lemma scan_env_spec names env v :
  scan_env names env v = from_option Some v (env_value env names).
Proof.
  induction env as [|kv env IH] using rev_ind; [done|].
  rewrite scan_env_app, env_value_app. by case_bool_decide.
Qed.

Lemma split_nonempty c s : split c s ≠ [].
Proof. destruct s as [|a s]; simpl; [done|]. destruct (Ascii.eqb a c); [done|]. by destruct (split c s). Qed.

Lemma image_name_of_ok image : image_name_of image = Ok (base_name image).
Proof.
  unfold image_name_of, base_name, last_item.
  destruct (last _) eqn:E; [done|].
  apply last_None in E. by apply split_nonempty in E.
Qed.

Lemma first_non_empty_Some chain s :
  first_non_empty chain = Some s → s ≠ EmptyString ∧ Some s ∈ chain.
Proof.
  induction chain as [|o chain IH]; simpl; [done|].
  destruct (str_truthy o) eqn:Ho.
  - intros ->. split; [|left]. intros ->. done.
  - intros H. destruct (IH H). split; [done|by right].
Qed.

Lemma bind_ok {A B} (r : result A) (k : A → result B) b :
  (r ≫= k) = Ok b → ∃ a, r = Ok a ∧ k a = Ok b.
Proof. destruct r as [a|e]; [by exists a|discriminate]. Qed.

Lemma image_fallback_spec raw env base image var v :
  r_env raw = Some env →
  image_fallback raw base image var v
  = Ok (if negb (str_truthy v) && String.eqb base image
        then from_option Some v (env_value env [var]) else v).
Proof.
  intros Henv. unfold image_fallback, env_of. rewrite Henv.
  destruct (str_truthy v); simpl; [done|].
  destruct (String.eqb base image); [|done].
  simpl. by rewrite scan_env_spec.
Qed.

Lemma image_fallback_truthy raw base image var v :
  str_truthy v = true → image_fallback raw base image var v = Ok v.
Proof. intros H. unfold image_fallback. by rewrite H. Qed.

Lemma image_fallback_other raw base image var v :
  String.eqb base image = false → image_fallback raw base image var v = Ok v.
Proof. intros H. unfold image_fallback. rewrite H. by destruct (str_truthy v). Qed.

Lemma str_truthy_from_option v o :
  str_truthy v = false →
  str_truthy (from_option Some v o) = str_truthy o.
Proof. by destruct o. Qed.

Lemma get_version_chain raw v :
  _get_version raw = Ok v → non_empty v = first_non_empty (version_chain raw).
Proof.
  unfold _get_version, version_chain.
  destruct (r_labels raw) as [labels|]; [|discriminate].
  destruct (r_image raw) as [image|]; [|discriminate].
  simpl. rewrite image_name_of_ok. simpl.
  destruct (item1 _) as [tag|]; [|discriminate]. simpl.
  set (label := labels !! "org.opencontainers.image.version").
  destruct (str_truthy label) eqn:Hlabel; simpl.
  - repeat (rewrite image_fallback_truthy by done; simpl).
    intros [= Hv]; rewrite <- Hv; clear Hv. unfold non_empty. by rewrite Hlabel.
  - unfold env_of at 1. destruct (r_env raw) as [env|] eqn:Henv; [|discriminate].
    simpl. rewrite scan_env_spec.
    change version_env_strings with well_known_version_variables.
    set (db := env_value env well_known_version_variables).
    assert (str_truthy (from_option Some label db) = str_truthy db) as Hdb
      by by apply str_truthy_from_option.
    destruct (str_truthy db) eqn:Hdbt.
    + repeat (rewrite image_fallback_truthy by done; simpl).
      intros [= Hv]; rewrite <- Hv; clear Hv. unfold non_empty. rewrite Hdb.
      destruct db; [done|discriminate].
    + set (v2 := from_option Some label db) in *.
      destruct (String.eqb_spec (base_name image) "php") as [Hphp|Hphp].
      { rewrite Hphp, (image_fallback_spec raw env) by done. simpl.
        repeat (rewrite image_fallback_other by done; simpl).
        rewrite Hdb. simpl.
        intros [= Hv]; rewrite <- Hv; clear Hv. unfold non_empty.
        rewrite str_truthy_from_option by done.
        by destruct (env_value env ["PHP_VERSION"]). }
      apply String.eqb_neq in Hphp.
      rewrite (image_fallback_other _ _ "php") by done. simpl.
      destruct (String.eqb_spec (base_name image) "nginx") as [Hng|Hng].
      { rewrite Hng, (image_fallback_spec raw env) by done. simpl.
        repeat (rewrite image_fallback_other by done; simpl).
        rewrite Hdb. simpl.
        intros [= Hv]; rewrite <- Hv; clear Hv. unfold non_empty.
        rewrite str_truthy_from_option by done.
        by destruct (env_value env ["NGINX_VERSION"]). }
      apply String.eqb_neq in Hng.
      rewrite (image_fallback_other _ _ "nginx") by done. simpl.
      destruct (String.eqb_spec (base_name image) "python") as [Hpy|Hpy].
      { rewrite Hpy, (image_fallback_spec raw env) by done. simpl.
        rewrite Hdb. simpl.
        intros [= Hv]; rewrite <- Hv; clear Hv. unfold non_empty.
        rewrite str_truthy_from_option by done.
        by destruct (env_value env ["PYTHON_VERSION"]). }
      apply String.eqb_neq in Hpy.
      rewrite (image_fallback_other _ _ "python") by done. simpl.
      intros [= Hv]; rewrite <- Hv; clear Hv. unfold non_empty.
      unfold image_specific_variable. rewrite Hphp, Hng, Hpy. simpl.
      by rewrite Hdb.
Qed.

(** *** Timestamp parsing never raises *)

Lemma parse_ns_iso8601_try_raises fromisoformat s e :
  parse_ns_iso8601_try fromisoformat s = Raise e → e = ValueError ∨ e = AttributeError.
Proof.
  unfold parse_ns_iso8601_try.
  destruct s as [[| | |s]|]; try (intros [= <-]; by right).
  destruct (str_in "." (rstrip "Z" s)); simpl.
  - destruct (split "." (rstrip "Z" s)) as [|ts [|frac [|]]]; simpl;
      try (intros [= <-]; by left).
    destruct (fromisoformat _); [done|]. intros [= <-]; by left.
  - destruct (fromisoformat _); [done|]. intros [= <-]; by left.
Qed.

Lemma parse_ns_iso8601_total fromisoformat clock s :
  parse_ns_iso8601 fromisoformat clock s
  = Ok (match parse_ns_iso8601_try fromisoformat s with
        | Ok t => t
        | Raise _ => clock
        end).
Proof.
  unfold parse_ns_iso8601.
  destruct (parse_ns_iso8601_try fromisoformat s) as [t|e] eqn:E; [done|].
  by destruct (parse_ns_iso8601_try_raises _ _ _ E) as [-> | ->].
Qed.

Lemma Container_init_ok fromisoformat clock raw c :
  Container_init fromisoformat clock raw = Ok c →
  _get_version raw = Ok (_version c)
  ∧ parse_ns_iso8601 fromisoformat clock (opt_json (r_created raw)) = Ok (created c)
  ∧ started c = created c
  ∧ _update_status c = default_update_status
  ∧ container_id c = opt_str (r_host_id raw) +:+ ":" +:+ opt_str (r_id raw)
  ∧ c_host_id c = r_host_id raw ∧ c_id c = r_id raw.
Proof.
  unfold Container_init. rewrite parse_ns_iso8601_total. simpl.
  destruct (_get_version raw) as [v|]; [|discriminate]. simpl.
  by intros [= <-].
Qed.

(** C3. The version a constructed Container exposes is the first non-empty
    value of the resolution chain of its raw record (the OCI image-version
    label, then the value of a well-known database or cache version
    variable, then the variable recognised for the base name of the image:
    PHP_VERSION for php, NGINX_VERSION for nginx, PYTHON_VERSION for
    python), and "N/A" when the chain has none. Hence it is "N/A" or a
    non-empty string taken from the chain. *)
Theorem version_resolution fromisoformat clock raw c
    (Hinit : Container_init fromisoformat clock raw = Ok c) :
  version c = version_spec raw
  ∧ (version c = "N/A"
     ∨ (version c ≠ EmptyString ∧ Some (version c) ∈ version_chain raw)).
Proof.
  apply Container_init_ok in Hinit as (Hv & _).
  apply get_version_chain in Hv.
  assert (version c = version_spec raw) as Heq.
  { unfold version, version_spec. rewrite <- Hv. unfold non_empty.
    destruct (_version c) as [s|]; [|done]. simpl. by destruct (negb _). }
  split; [done|]. rewrite Heq. unfold version_spec.
  destruct (first_non_empty (version_chain raw)) as [s|] eqn:E; [|by left].
  right. by apply first_non_empty_Some.
Qed.

Lemma version_resolution_witness :
  Container_init iso_sample clock0 raw0 = Ok container0
  ∧ version container0 = "1.25.3"
  ∧ version_spec raw0 = "1.25.3".
Proof.
  assert (Container_init iso_sample clock0 raw0 = Ok container0) as Hinit
    by reflexivity.
  split; [exact Hinit|]. split; [reflexivity|].
  destruct (version_resolution iso_sample clock0 raw0 container0 Hinit) as [<- _].
  reflexivity.
Defined.

(** ** Container construction *)

Lemma prefix_empty (s : string) : String.prefix EmptyString s = true.
Proof. by destruct s. Qed.

Lemma split1_no_separator (s : string) :
  str_in ":" s = false → split1 ":" s = [s].
Proof.
  induction s as [|a s IH]; [done|].
  rewrite str_in_cons. intros [Hp Hs]%orb_false_iff.
  simpl in Hp. destruct (ascii_dec ":" a) as [<-|Hne].
  - by rewrite prefix_empty in Hp.
  - simpl. rewrite (proj2 (Ascii.eqb_neq a ":")) by congruence.
    by rewrite IH.
Qed.

Lemma get_version_no_labels raw :
  r_labels raw = None → _get_version raw = Raise AttributeError.
Proof. intros H. unfold _get_version. by rewrite H. Qed.

Lemma get_version_no_tag raw labels image :
  r_labels raw = Some labels → r_image raw = Some image →
  str_in ":" image = false → _get_version raw = Raise IndexError.
Proof.
  intros Hl Hi Hc. unfold _get_version. rewrite Hl, Hi. simpl.
  rewrite image_name_of_ok. simpl. by rewrite split1_no_separator.
Qed.

(** C10. Construction is not total: for a raw record without a labels
    field it raises [AttributeError], and for one whose image reference
    has no [:] it raises [IndexError] (or [AttributeError] when the labels
    are missing too); nothing in [__init__] catches either. *)
Theorem construction_raises fromisoformat clock raw
    (Hraw : r_labels raw = None
            ∨ ∃ image, r_image raw = Some image ∧ str_in ":" image = false) :
  Container_init fromisoformat clock raw
  = Raise (match r_labels raw with
           | None => AttributeError
           | Some _ => IndexError
           end).
Proof.
  unfold Container_init. rewrite !parse_ns_iso8601_total. simpl.
  destruct (r_labels raw) as [labels|] eqn:Hl.
  - destruct Hraw as [?|(image & Hi & Hc)]; [done|].
    by rewrite (get_version_no_tag raw labels image).
  - by rewrite get_version_no_labels.
Qed.

Lemma construction_raises_witness :
  (∃ image, r_image raw_untagged = Some image ∧ str_in ":" image = false)
  ∧ Container_init iso_sample clock0 raw_untagged = Raise IndexError
  ∧ r_labels raw_unlabelled = None
  ∧ Container_init iso_sample clock0 raw_unlabelled = Raise AttributeError.
Proof.
  assert (∃ image, r_image raw_untagged = Some image ∧ str_in ":" image = false)
    as Hno_tag by (by exists "postgres").
  split; [exact Hno_tag|]. split; [|split; [reflexivity|]].
  - exact (construction_raises iso_sample clock0 raw_untagged (or_intror Hno_tag)).
  - exact (construction_raises iso_sample clock0 raw_unlabelled (or_introl eq_refl)).
Defined.

(** C5. At the record [raw0], whose created timestamp is
    2024-01-01T00:00:00.123456789Z and whose started timestamp is
    2024-01-03T12:00:00Z, construction succeeds, [created] is the parsed
    created timestamp, and [started] is that same instant: the started
    timestamp, which parses to 2024-01-03 12:00:00, is not read. *)
Theorem started_is_parsed_from_created :
  Container_init iso_sample clock0 raw0 = Ok container0
  ∧ created container0 = Datetime 1704067200123456
  ∧ started container0 = Datetime 1704067200123456
  ∧ parse_ns_iso8601 iso_sample clock0 (opt_json (r_started raw0))
    = Ok (Datetime 1704283200000000).
Proof. repeat split. Qed.

(** ** Merging a detailed update status *)

Lemma set_update_status_missing_key fromisoformat clock c payload :
  payload !! "current_version" = None →
  set_update_status fromisoformat clock c payload = Raise (KeyError "current_version").
Proof. intros H. unfold set_update_status, subscript. by rewrite H. Qed.

(** With a [current_version] entry the merge succeeds; the entry is kept
    when it is truthy and replaced by the local version when it is falsy
    and the local version is not. *)
Lemma set_update_status_current_version fromisoformat clock c payload cv :
  payload !! "current_version" = Some cv →
  ∃ c', set_update_status fromisoformat clock c payload = Ok c'
        ∧ _update_status c' !! "current_version"
          = Some (if negb (truthy cv) && str_truthy (_version c)
                  then opt_json (_version c) else cv).
Proof.
  intros H. unfold set_update_status, subscript. rewrite H. simpl.
  set (us := if negb (truthy cv) && str_truthy (_version c) then _ else _).
  assert (us !! "current_version"
          = Some (if negb (truthy cv) && str_truthy (_version c)
                  then opt_json (_version c) else cv)) as Hus.
  { unfold us. destruct (negb (truthy cv) && str_truthy (_version c)); [|done].
    by rewrite lookup_insert_eq. }
  destruct (truthy (dict_get us "last_checked_at")).
  - rewrite parse_ns_iso8601_total. simpl. eexists. split; [done|]. simpl.
    by rewrite !lookup_insert_ne.
  - simpl. eexists. by split.
Qed.

(** When [last_checked_at] is set, it is replaced by its parsed instant
    and [last_checked] is worded from it. *)
Lemma set_update_status_last_checked fromisoformat clock c payload c' :
  set_update_status fromisoformat clock c payload = Ok c' →
  truthy (dict_get payload "last_checked_at") = true →
  ∃ t, parse_ns_iso8601 fromisoformat clock (dict_get payload "last_checked_at") = Ok t
       ∧ _update_status c' !! "last_checked_at" = Some (PDatetime t)
       ∧ _update_status c' !! "last_checked"
         = Some (PJson (JStr (last_checked clock t))).
Proof.
  unfold set_update_status, subscript.
  destruct (payload !! "current_version") as [cv|]; [|discriminate]. simpl.
  set (us := if negb (truthy cv) && str_truthy (_version c) then _ else _).
  assert (dict_get us "last_checked_at" = dict_get payload "last_checked_at") as ->.
  { unfold us, dict_get.
    destruct (negb (truthy cv) && str_truthy (_version c)); [|done].
    by rewrite lookup_insert_ne. }
  intros Hset Ht. rewrite Ht in Hset.
  rewrite parse_ns_iso8601_total in *. simpl in Hset. injection Hset as <-.
  eexists. split; [done|]. simpl.
  by rewrite lookup_insert_eq, lookup_insert_ne, lookup_insert_eq.
Qed.

(** C6. At the detailed status [status_without_current_version], which
    has no [current_version] entry, the merge into [container0] (local
    version 1.25.3) raises [KeyError] instead of backfilling. *)
Theorem merge_without_current_version_raises :
  _version container0 = Some "1.25.3"
  ∧ status_without_current_version !! "current_version" = None
  ∧ set_update_status iso_sample clock0 container0
      (PJson <$> status_without_current_version)
    = Raise (KeyError "current_version").
Proof. repeat split. Qed.

(** ** Repeating a reconciliation *)

Lemma with_update_status_twice c us us' :
  with_update_status (with_update_status c us) us' = with_update_status c us'.
Proof. reflexivity. Qed.


Lemma set_update_status_shape fromisoformat clock c payload c1 :
  set_update_status fromisoformat clock c payload = Ok c1 →
  c1 = with_update_status c (_update_status c1).
Proof.
  unfold set_update_status.
  destruct (subscript payload "current_version") as [cv|]; [|discriminate]. simpl.
  match goal with
  | |- context [mbind _ ?m] => destruct m as [us'|]; [|discriminate]
  end.
  simpl. by intros [= <-].
Qed.




(** ** The remote calls: the [io] monad *)

Lemma io_bind_eq {A B} (m : io A) (k : A → io B) w :
  (m ≫= k) w = match m w with
               | (w', Ok a) => k a w'
               | (w', Raise e) => (w', Raise e)
               end.
Proof. reflexivity. Qed.

Lemma for_each_app {A S} (l1 l2 : list A) (body : A → S → io S) s w :
  for_each (l1 ++ l2) body s w
  = (s' ← for_each l1 body s; for_each l2 body s') w.
Proof.
  revert s w. induction l1 as [|x l1 IH]; intros s w; [done|].
  simpl. rewrite !io_bind_eq. destruct (body x s w) as [w' [s'|e]]; [|done].
  apply IH.
Qed.

Lemma for_each_fmap {A B S} (f : A → B) (l : list A) (body : B → S → io S) s w :
  for_each (f <$> l) body s w = for_each l (λ x, body (f x)) s w.
Proof.
  revert s w. induction l as [|x l IH]; intros s w; [done|].
  simpl. rewrite !io_bind_eq. destruct (body (f x) s w) as [w' [s'|e]]; [|done].
  apply IH.
Qed.


Lemma extends_refl w : extends w w [] [].
Proof. unfold extends. by rewrite !app_nil_r. Qed.





Lemma for_each_cons {A S} (x : A) (l : list A) (body : A → S → io S) s w :
  for_each (x :: l) body s w
  = match body x s w with
    | (w', Ok s') => for_each l body s' w'
    | (w', Raise e) => (w', Raise e)
    end.
Proof. reflexivity. Qed.





(** The two branches of [main] run the dispatcher on what
    [get_container_status] returns. *)
Lemma main_dispatch fromisoformat clock client args w :
  main_update fromisoformat clock client args w
  = (hosts ← get_container_status fromisoformat clock client args;
     dispatcher Update client args hosts) w
  ∧ main_restart fromisoformat clock client args w
    = (hosts ← get_container_status fromisoformat clock client args;
       dispatcher Restart client args hosts) w.
Proof. by split. Qed.


Lemma client0_well_formed path : well_formed_reply (ep_post client0 path).
Proof.
  simpl. destruct (String.eqb path _); simpl;
    repeat split; eexists; reflexivity.
Qed.


(** ** Mutating actions *)

Lemma json_eq_str_true (j : json) (s : string) :
  json_eq_str j s = true ↔ j = JStr s.
Proof.
  destruct j as [| | |s']; simpl; try (split; [done|discriminate]).
  rewrite String.eqb_eq. split; [by intros ->|by intros [= ->]].
Qed.

Lemma json_eq_str_false (j : json) (s : string) :
  j ≠ JStr s → json_eq_str j s = false.
Proof.
  intros H. destruct (json_eq_str j s) eqn:E; [|done].
  by apply json_eq_str_true in E.
Qed.

(** C8. [execute_update], when not quiet, sends its one request and then:
    on an HTTP error whose [detail] is exactly "No update available for
    this container" it prints the detail after the success glyph and
    returns the error body; on any other HTTP error detail it prints it
    after the error glyph and returns the error body; on a 2xx reply it
    prints the message after the success glyph when [status] is
    "success" and after the error glyph otherwise, and returns the reply. *)
Theorem execute_update_classification client host_id container_id w :
  let path := execute_update_path host_id container_id in
  let sent := requests w ++ [POST path [("force", JBool true)]] in
  (∀ error, ep_post client path = HttpError error →
     error !! "detail" = Some (JStr "No update available for this container") →
     execute_update client host_id container_id false w
     = (World sent (stdout w ++ [Line "✅ No update available for this container"]),
        Ok error))
  ∧ (∀ error detail, ep_post client path = HttpError error →
       error !! "detail" = Some detail →
       detail ≠ JStr "No update available for this container" →
       execute_update client host_id container_id false w
       = (World sent (stdout w ++ [Line ("❌ HTTP exception: " +:+ json_str detail)]),
          Ok error))
  ∧ (∀ result message, ep_post client path = Reply result →
       result !! "status" = Some (JStr "success") →
       result !! "message" = Some message →
       execute_update client host_id container_id false w
       = (World sent (stdout w ++ [Line ("✅ " +:+ json_str message)]), Ok result))
  ∧ (∀ result status message, ep_post client path = Reply result →
       result !! "status" = Some status → status ≠ JStr "success" →
       result !! "message" = Some message →
       execute_update client host_id container_id false w
       = (World sent (stdout w ++ [Line ("❌ " +:+ json_str message)]), Ok result)).
Proof.
  intros path sent. repeat split.
  - intros error Hpost Hdetail. unfold execute_update. fold path.
    rewrite Hpost. unfold mbind, io_bind, send, lift, subscript. simpl.
    rewrite Hdetail. reflexivity.
  - intros error detail Hpost Hdetail Hne. unfold execute_update. fold path.
    rewrite Hpost. unfold mbind, io_bind, send, lift, subscript. simpl.
    rewrite Hdetail. simpl. rewrite json_eq_str_false by done. reflexivity.
  - intros result message Hpost Hstatus Hmessage. unfold execute_update. fold path.
    rewrite Hpost. unfold report_result, mbind, io_bind, send, lift, subscript. simpl.
    rewrite Hstatus. simpl. rewrite Hmessage. reflexivity.
  - intros result status message Hpost Hstatus Hne Hmessage.
    unfold execute_update. fold path.
    rewrite Hpost. unfold report_result, mbind, io_bind, send, lift, subscript. simpl.
    rewrite Hstatus. simpl. rewrite json_eq_str_false by done.
    rewrite Hmessage. reflexivity.
Qed.

Lemma execute_update_classification_witness :
  ep_post client0 (execute_update_path (Some "h1") (Some "abc123"))
  = HttpError {[ "detail" := JStr "No update available for this container" ]}
  ∧ execute_update client0 (Some "h1") (Some "abc123") false world0
    = (World [POST "hosts/h1/containers/abc123/execute-update" [("force", JBool true)]]
             [Line "✅ No update available for this container"],
       Ok {[ "detail" := JStr "No update available for this container" ]})
  ∧ ep_post client0 (execute_update_path (Some "h1") (Some "def456"))
    = Reply {[ "status" := JStr "success"; "message" := JStr "done" ]}
  ∧ execute_update client0 (Some "h1") (Some "def456") false world0
    = (World [POST "hosts/h1/containers/def456/execute-update" [("force", JBool true)]]
             [Line "✅ done"],
       Ok {[ "status" := JStr "success"; "message" := JStr "done" ]}).
Proof.
  destruct (execute_update_classification client0 (Some "h1") (Some "abc123") world0)
    as (Hbenign & _).
  destruct (execute_update_classification client0 (Some "h1") (Some "def456") world0)
    as (_ & _ & Hsuccess & _).
  split; [reflexivity|]. split.
  - exact (Hbenign _ eq_refl eq_refl).
  - split; [reflexivity|]. exact (Hsuccess _ (JStr "done") eq_refl eq_refl eq_refl).
Defined.

(** ** Update reconciliation *)

Lemma hosts_add_container_keys hosts k c :
  (hosts_add_container hosts k c).*1 = hosts.*1.
Proof.
  induction hosts as [|[k' h'] hosts IH]; [done|]. simpl.
  case_bool_decide; simpl; [done|]. by f_equal.
Qed.

Lemma hosts_add_container_elem hosts k c kh c' :
  kh ∈ hosts_add_container hosts k c → c' ∈ _containers kh.2 →
  (∃ kh0, kh0 ∈ hosts ∧ c' ∈ _containers kh0.2)
  ∨ (∃ h, c' = set_host c h).
Proof.
  induction hosts as [|[k' h'] hosts IH]; simpl; [by intros ?%elem_of_nil|].
  case_bool_decide.
  - intros [->|Hin]%elem_of_cons Hc.
    + simpl in Hc. apply elem_of_app in Hc as [Hc|Hc].
      * left. exists (k', h'). split; [left|done].
      * right. apply list_elem_of_singleton in Hc. by eexists.
    + left. exists kh. split; [by right|done].
  - intros [->|Hin]%elem_of_cons Hc.
    + left. exists (k', h'). split; [left|done].
    + destruct (IH Hin Hc) as [(kh0 & ? & ?)|?]; [|by right].
      left. exists kh0. split; [by right|done].
Qed.

Lemma set_update_status_fields fromisoformat clock c payload c' :
  set_update_status fromisoformat clock c payload = Ok c' →
  container_id c' = container_id c ∧ c_host_id c' = c_host_id c ∧ c_id c' = c_id c.
Proof.
  unfold set_update_status.
  destruct (subscript payload "current_version") as [cv|]; [|discriminate]. simpl.
  match goal with
  | |- context [mbind _ ?m] => destruct m as [us'|]; [|discriminate]
  end.
  simpl. by intros [= <-].
Qed.

Lemma reconcile_one_ok fromisoformat clock client args updates raw hosts w w' hosts' :
  reconcile_one fromisoformat clock client args updates raw hosts w = (w', Ok hosts') →
  ∃ c, Container_init fromisoformat clock raw = Ok c
       ∧ requests w' = requests w
           ++ (if fetches_detail hosts args updates c
               then [detail_request c] else [])
       ∧ stdout w' = stdout w
       ∧ hosts'.*1 = hosts.*1
       ∧ (unflagged_keep_default updates hosts → unflagged_keep_default updates hosts').
Proof.
  unfold reconcile_one. rewrite io_bind_eq. unfold lift at 1.
  destruct (Container_init fromisoformat clock raw) as [c|] eqn:Hinit; [|discriminate].
  intros Hrun. exists c. split; [done|]. revert Hrun.
  unfold fetches_detail, in_working_set, flagged.
  destruct (hosts_has hosts (c_host_id c)) eqn:Hhas; simpl.
  2:{ intros [= <- <-]. rewrite app_nil_r. by repeat split. }
  rewrite io_bind_eq. unfold lift at 1.
  destruct (_container_match c _ _) as [[|]|] eqn:Hmatch; simpl; [| |discriminate].
  2:{ intros [= <- <-]. rewrite app_nil_r. by repeat split. }
  rewrite io_bind_eq.
  assert (∀ c1, container_id c1 = container_id c →
            (flagged updates c = false → _update_status c1 = default_update_status) →
            unflagged_keep_default updates hosts →
            unflagged_keep_default updates (hosts_add_container hosts (c_host_id c1) c1))
    as Hadd.
  { intros c1 Hid Hc1 Hinv kh c' Hkh Hc' Hun.
    destruct (hosts_add_container_elem _ _ _ _ _ Hkh Hc') as [(kh0 & ? & ?)|[h ->]];
      [by eapply Hinv|].
    simpl. apply Hc1. unfold flagged in *. simpl in Hun. by rewrite <- Hid. }
  unfold flagged in Hadd.
  case_bool_decide as Hflag.
  - (* flagged: one detail fetch, then the merge *)
    unfold call. rewrite !io_bind_eq. unfold send at 1.
    destruct (ep_get client (update_status_path c)) as [body|body]; simpl;
      [|discriminate].
    destruct (set_update_status _ _ _ _) as [c1|] eqn:Hset; simpl; [|discriminate].
    apply set_update_status_fields in Hset as (Hid & Hhost & _).
    unfold mbind, io_bind, mret, io_ret, lift.
    destruct (a_updates_only args); simpl.
    + destruct (update_available c1) as [ua|]; simpl; [|discriminate].
      destruct (negb (truthy ua)); simpl; intros [= <- <-];
        (split; [done|]); (split; [done|]).
      * by split.
      * split; [apply hosts_add_container_keys|]. by apply Hadd.
    + intros [= <- <-]. (split; [done|]); (split; [done|]).
      split; [apply hosts_add_container_keys|]. by apply Hadd.
  - (* not flagged: no request, the default status stays *)
    assert (_update_status c = default_update_status) as Hdefault
      by (by apply Container_init_ok in Hinit as (_ & _ & _ & ? & _)).
    unfold mbind, io_bind, mret, io_ret, lift, update_available.
    rewrite Hdefault.
    destruct (a_updates_only args); simpl.
    + intros [= <- <-]. rewrite app_nil_r. by repeat split.
    + intros [= <- <-]. rewrite app_nil_r.
      (split; [done|]); (split; [done|]).
      split; [apply hosts_add_container_keys|]. by apply Hadd.
Qed.

Lemma fetches_detail_keys hosts hosts' args updates c :
  hosts'.*1 = hosts.*1 →
  fetches_detail hosts' args updates c = fetches_detail hosts args updates c.
Proof.
  intros H. unfold fetches_detail, in_working_set, hosts_has. by rewrite H.
Qed.

Lemma reconcile_loop fromisoformat clock client args updates data hosts w w' hosts' :
  for_each data (reconcile_one fromisoformat clock client args updates) hosts w
    = (w', Ok hosts') →
  ∃ cs, mapM (Container_init fromisoformat clock) data = Ok cs
        ∧ requests w' = requests w
            ++ (detail_request <$> filter (fetches_detail hosts args updates) cs)
        ∧ stdout w' = stdout w
        ∧ hosts'.*1 = hosts.*1
        ∧ (unflagged_keep_default updates hosts → unflagged_keep_default updates hosts').
Proof.
  revert hosts w. induction data as [|raw data IH]; intros hosts w.
  - intros [= <- <-]. exists []. simpl. rewrite app_nil_r. by repeat split.
  - rewrite for_each_cons.
    destruct (reconcile_one _ _ _ _ _ raw hosts w) as [w1 [hosts1|]] eqn:Hone;
      [|discriminate].
    apply reconcile_one_ok in Hone as (c & Hinit & Hreq & Hout & Hkeys & Hinv).
    intros (cs & Hcs & Hreq' & Hout' & Hkeys' & Hinv')%IH.
    exists (c :: cs). simpl. rewrite Hinit. simpl. rewrite Hcs. simpl.
    split; [done|]. split.
    + rewrite Hreq', Hreq, <- app_assoc. f_equal.
      rewrite filter_cons.
      rewrite (list_filter_iff _ (fetches_detail hosts args updates) cs)
        by (intros ?; by rewrite (fetches_detail_keys hosts hosts1)).
      by destruct (fetches_detail hosts args updates c).
    + split; [congruence|]. split; [congruence|]. auto.
Qed.

Lemma hosts_setitem_elem hosts k h kh :
  kh ∈ hosts_setitem hosts k h → kh ∈ hosts ∨ kh = (k, h).
Proof.
  induction hosts as [|[k' h'] hosts IH]; simpl.
  - intros ?%list_elem_of_singleton. by right.
  - case_bool_decide.
    + intros [->|?]%elem_of_cons; [by right|left; by right].
    + intros [->|Hin]%elem_of_cons; [left; by left|].
      destruct (IH Hin); [left; by right|by right].
Qed.

Lemma select_hosts_fresh args data kh :
  kh ∈ select_hosts args data → _containers kh.2 = [].
Proof.
  unfold select_hosts.
  assert (∀ acc, (∀ kh, kh ∈ acc → _containers kh.2 = []) →
                 ∀ kh, kh ∈ foldl (fun hosts host =>
           if negb (str_truthy (a_host args)) || bool_decide (rh_name host = a_host args)
           then hosts_setitem hosts (rh_id host)
                  (set_container_order (Host_init host) (a_order args))
           else hosts) acc data → _containers kh.2 = []) as H.
  { induction data as [|host data IH]; intros acc Hacc; [done|]. simpl.
    apply IH. destruct (_ || _); [|done].
    intros kh' [?| ->]%hosts_setitem_elem; [by apply Hacc|done]. }
  apply H. by intros ? ?%elem_of_nil.
Qed.

(** C1. When [get_container_status] returns, it has asked for the hosts,
    for the update summary once, and for the containers, and then sent one
    detailed update-status request for each container record that is in
    the working set (its host was kept and the filter matched) and whose
    composite id is listed in the summary, in the order of the listing,
    and no other request. Every container it hands back that is not
    listed in the summary still has the default update status. *)
Theorem selective_detail_fetch fromisoformat clock client args w w' hosts
    (Hrun : get_container_status fromisoformat clock client args w = (w', Ok hosts)) :
  ∃ host_data updates data cs,
    ep_hosts client = Reply host_data
    ∧ ep_summary client = Reply updates
    ∧ ep_containers client = Reply data
    ∧ mapM (Container_init fromisoformat clock) data = Ok cs
    ∧ requests w' = requests w
        ++ [GET "hosts"; GET "updates/summary"; GET "containers"]
        ++ (detail_request
            <$> filter (fetches_detail (select_hosts args host_data) args updates) cs)
    ∧ stdout w' = stdout w
    ∧ unflagged_keep_default updates hosts.
Proof.
  revert Hrun. unfold get_container_status, call.
  unfold mbind at 1 2 3 4 5 6, io_bind, send, mret, io_ret, lift. simpl.
  destruct (ep_hosts client) as [host_data|]; [|discriminate].
  destruct (ep_summary client) as [updates|]; [|discriminate].
  destruct (ep_containers client) as [data|]; [|discriminate].
  intros (cs & Hcs & Hreq & Hout & Hkeys & Hinv)%reconcile_loop.
  exists host_data, updates, data, cs. repeat (split; [done|]).
  split; [|split; [done|]].
  - rewrite Hreq. simpl. by rewrite <- !app_assoc.
  - apply Hinv. intros kh c Hkh Hc. apply select_hosts_fresh in Hkh.
    rewrite Hkh in Hc. by apply elem_of_nil in Hc.
Qed.

Lemma selective_detail_fetch_witness :
  get_container_status iso_sample clock0 client0 args0 world0 = (world1, Ok hosts1)
  ∧ requests world1
    = [GET "hosts"; GET "updates/summary"; GET "containers";
       GET "hosts/h1/containers/abc123/update-status"]
  ∧ ∃ host_data updates data cs,
      ep_hosts client0 = Reply host_data
      ∧ ep_summary client0 = Reply updates
      ∧ ep_containers client0 = Reply data
      ∧ mapM (Container_init iso_sample clock0) data = Ok cs
      ∧ requests world1 = requests world0
          ++ [GET "hosts"; GET "updates/summary"; GET "containers"]
          ++ (detail_request
              <$> filter (fetches_detail (select_hosts args0 host_data) args0 updates) cs)
      ∧ stdout world1 = stdout world0
      ∧ unflagged_keep_default updates hosts1.
Proof.
  assert (get_container_status iso_sample clock0 client0 args0 world0
          = (world1, Ok hosts1)) as Hrun by (vm_compute; reflexivity).
  split; [exact Hrun|]. split; [reflexivity|].
  exact (selective_detail_fetch iso_sample clock0 client0 args0 world0 world1 hosts1 Hrun).
Defined.

(** * Further properties *)

(** ** Credentials *)

Lemma str_truthy_Some (o : option string) :
  str_truthy o = true → ∃ s, o = Some s ∧ s ≠ EmptyString.
Proof.
  destruct o as [s|]; [|done]. simpl. intros H. exists s. split; [done|].
  intros ->. done.
Qed.

(** X1. [resolve_credentials] never mixes sources: when it returns, the
    URL and the key are both non-empty and both come from the
    environment, or both from the configuration file, or both from the
    Docker secrets; a source is consulted only when the key of every
    source before it is missing or empty. *)
Theorem resolve_credentials_one_source (src : credential_sources) (url key : string)
    (Hres : resolve_credentials src = Some (url, key)) :
  url ≠ EmptyString ∧ key ≠ EmptyString
  ∧ ((env_api_url src = Some url ∧ env_api_key src = Some key)
     ∨ (str_truthy (env_api_key src) = false
        ∧ get_config_file src = (Some url, Some key))
     ∨ (str_truthy (env_api_key src) = false
        ∧ str_truthy (get_config_file src).2 = false
        ∧ secret_api_url src = Some url ∧ secret_api_key src = Some key)).
Proof.
  revert Hres. unfold resolve_credentials.
  destruct (str_truthy (env_api_key src)) eqn:Henv; simpl.
  - rewrite Henv. simpl.
    destruct (str_truthy (env_api_url src)) eqn:Hurl; rewrite ?Henv; simpl; [|done].
    apply str_truthy_Some in Henv as (k & Hk & ?).
    apply str_truthy_Some in Hurl as (u & Hu & ?).
    rewrite Hk, Hu. simpl. intros [= <- <-]. repeat split; try done. by left.
  - destruct (get_config_file src) as [curl ckey] eqn:Hcfg.
    destruct (str_truthy ckey) eqn:Hckey; simpl.
    + destruct (str_truthy curl) eqn:Hcurl; rewrite ?Hckey; simpl; [|done].
      apply str_truthy_Some in Hckey as (k & -> & ?).
      apply str_truthy_Some in Hcurl as (u & -> & ?).
      simpl. intros [= <- <-]. repeat split; try done. right. by left.
    + destruct (str_truthy (secret_api_key src)) eqn:Hskey; simpl; [|done].
      destruct (str_truthy (secret_api_url src)) eqn:Hsurl; rewrite ?Hskey; simpl; [|done].
      apply str_truthy_Some in Hskey as (k & Hk & ?).
      apply str_truthy_Some in Hsurl as (u & Hu & ?).
      rewrite Hk, Hu. simpl. intros [= <- <-]. repeat split; try done.
      right. by right.
Qed.

Lemma resolve_credentials_one_source_witness :
  resolve_credentials
    {| env_api_key := None; env_api_url := Some "https://env.example";
       config_ini := Some (Some "https://dockmon.example/api", Some "k3y");
       secret_api_key := Some "s3cret"; secret_api_url := Some "https://secret" |}
  = Some ("https://dockmon.example/api", "k3y")
  ∧ "https://dockmon.example/api" ≠ EmptyString ∧ "k3y" ≠ EmptyString.
Proof.
  split; [reflexivity|].
  destruct (resolve_credentials_one_source
              {| env_api_key := None; env_api_url := Some "https://env.example";
                 config_ini := Some (Some "https://dockmon.example/api", Some "k3y");
                 secret_api_key := Some "s3cret"; secret_api_url := Some "https://secret" |}
              "https://dockmon.example/api" "k3y" eq_refl) as (Hu & Hk & _).
  by split.
Defined.

(** X2. A key in the environment shuts out the other sources: with
    DOCKMON_API_KEY set and DOCKMON_API_URL missing or empty,
    [resolve_credentials] exits, whatever the configuration file and the
    secrets hold. And without a key in the environment DOCKMON_API_URL is
    ignored: the outcome is the same for every value of it. *)
Theorem resolve_credentials_env_key :
  (∀ src, str_truthy (env_api_key src) = true →
          str_truthy (env_api_url src) = false →
          resolve_credentials src = None)
  ∧ (∀ key url url' cfg skey surl,
       str_truthy key = false →
       resolve_credentials
         {| env_api_key := key; env_api_url := url; config_ini := cfg;
            secret_api_key := skey; secret_api_url := surl |}
       = resolve_credentials
           {| env_api_key := key; env_api_url := url'; config_ini := cfg;
              secret_api_key := skey; secret_api_url := surl |}).
Proof.
  split.
  - intros src Hkey Hurl. unfold resolve_credentials.
    rewrite Hkey. simpl. rewrite Hkey. simpl. by rewrite Hkey, Hurl.
  - intros key url url' cfg skey surl Hkey. unfold resolve_credentials. simpl.
    by rewrite Hkey.
Qed.

Lemma resolve_credentials_env_key_witness :
  str_truthy (Some "k3y") = true
  ∧ resolve_credentials
      {| env_api_key := Some "k3y"; env_api_url := None;
         config_ini := Some (Some "https://dockmon.example/api", Some "other");
         secret_api_key := Some "s3cret"; secret_api_url := Some "https://secret" |}
    = None.
Proof.
  split; [reflexivity|].
  exact (proj1 resolve_credentials_env_key
           {| env_api_key := Some "k3y"; env_api_url := None;
              config_ini := Some (Some "https://dockmon.example/api", Some "other");
              secret_api_key := Some "s3cret";
              secret_api_url := Some "https://secret" |} eq_refl eq_refl).
Defined.

(** ** Request URLs *)

Lemma rstrip_decompose (c : ascii) (s : string) :
  ∃ n, s = rstrip c s +:+ repeat_char c n ∧ last_char (rstrip c s) ≠ Some c.
Proof.
  induction s as [|a s (n & Hs & Hlast)]; [by exists O|]. simpl.
  destruct (Ascii.eqb_spec a c) as [->|Hne]; simpl.
  - destruct (rstrip c s) as [|b r] eqn:Hr; simpl.
    + exists (S n). split; [|done]. change (s = repeat_char c n) in Hs.
      change (String c s = String c (repeat_char c n)). by rewrite <- Hs.
    + exists n. split; [|exact Hlast].
      change (String c s = String c (String b r +:+ repeat_char c n)). by rewrite <- Hs.
  - exists n. split.
    + change (String a s = String a (rstrip c s +:+ repeat_char c n)). by rewrite <- Hs.
    + destruct (rstrip c s) as [|b r] eqn:Hr; simpl; [congruence|]. exact Hlast.
Qed.

Lemma lstrip_decompose (c : ascii) (s : string) :
  ∃ n, s = repeat_char c n +:+ lstrip c s ∧ first_char (lstrip c s) ≠ Some c.
Proof.
  induction s as [|a s (n & Hs & Hfirst)]; [by exists O|]. simpl.
  destruct (Ascii.eqb_spec a c) as [->|Hne].
  - exists (S n). split; [|done].
    change (String c s = String c (repeat_char c n +:+ lstrip c s)). by rewrite <- Hs.
  - exists O. split; [done|]. simpl. congruence.
Qed.

Lemma rstrip_repeat (c : ascii) (s : string) (n : nat) :
  rstrip c (s +:+ repeat_char c n) = rstrip c s.
Proof.
  induction s as [|a s IH].
  - change (rstrip c (repeat_char c n) = EmptyString).
    induction n as [|n IHn]; [done|]. simpl. rewrite IHn. simpl.
    by rewrite Ascii.eqb_refl.
  - change (rstrip c (String a (s +:+ repeat_char c n)) = rstrip c (String a s)).
    simpl. by rewrite IH.
Qed.

Lemma lstrip_repeat (c : ascii) (s : string) (n : nat) :
  lstrip c (repeat_char c n +:+ s) = lstrip c s.
Proof.
  induction n as [|n IH]; [done|].
  change (lstrip c (String c (repeat_char c n +:+ s)) = lstrip c s).
  simpl. by rewrite Ascii.eqb_refl.
Qed.

(** X3. The URL a request goes to joins the base URL and the path with
    exactly one slash: trailing slashes of the base URL and leading
    slashes of the path are dropped, so the path may be written with or
    without a leading slash (as [execute_restart] and [execute_update] do)
    and the base URL with or without a trailing one. *)
Theorem request_url_single_slash (base api_key path : string) :
  (∃ b p m n,
     request_url (APIClient_init base api_key) path = b +:+ "/" +:+ p
     ∧ base = b +:+ repeat_char "/" m
     ∧ path = repeat_char "/" n +:+ p
     ∧ last_char b ≠ Some "/"%char
     ∧ first_char p ≠ Some "/"%char)
  ∧ (∀ m n,
       request_url (APIClient_init (base +:+ repeat_char "/" m) api_key)
                   (repeat_char "/" n +:+ path)
       = request_url (APIClient_init base api_key) path).
Proof.
  split.
  - destruct (rstrip_decompose "/" base) as (m & Hb & Hlast).
    destruct (lstrip_decompose "/" path) as (n & Hp & Hfirst).
    by exists (rstrip "/" base), (lstrip "/" path), m, n.
  - intros m n. unfold request_url, APIClient_init. simpl.
    by rewrite rstrip_repeat, lstrip_repeat.
Qed.

(** ** Sorting *)

Lemma ltb_asym (a b : string) : String.ltb a b = true → String.ltb b a = false.
Proof.
  unfold String.ltb. rewrite (String.compare_antisym b a).
  by destruct (String.compare a b).
Qed.

Lemma py_lt_asym (x y : pyval) : py_lt x y = Ok true → py_lt y x = Ok false.
Proof.
  destruct x as [[|bx|nx|a]|t], y as [[|by_|ny|b]|u]; simpl; try done;
    intros [= H]; f_equal; try (by apply ltb_asym); lia.
Qed.

Lemma insert_by_perm {A} (kx : pyval) (x : A) l r :
  insert_by kx x l = Ok r → r ≡ₚ (kx, x) :: l.
Proof.
  revert r. induction l as [|[ky y] l IH]; intros r; simpl.
  - by intros [= <-].
  - destruct (py_lt kx ky) as [[|]|]; simpl; [by intros [= <-]| |done].
    destruct (insert_by kx x l) as [r'|]; simpl; [|done].
    intros [= <-]. rewrite (IH r' eq_refl). apply Permutation_swap.
Qed.

Lemma ascending_cons k ks :
  ascending (k :: ks) ↔ match ks with
                        | [] => True
                        | k2 :: _ => py_lt k2 k = Ok false
                        end ∧ ascending ks.
Proof. destruct ks; simpl; tauto. Qed.

Lemma insert_by_ascending {A} (kx : pyval) (x : A) l r :
  insert_by kx x l = Ok r → ascending l.*1 → ascending r.*1.
Proof.
  revert r. induction l as [|[ky y] l IH]; intros r; simpl.
  - by intros [= <-].
  - destruct (py_lt kx ky) as [[|]|] eqn:Hlt; simpl; [| |done].
    + intros [= <-] Hasc. simpl. split; [by apply py_lt_asym|done].
    + destruct (insert_by kx x l) as [r'|] eqn:Hins; simpl; [|done].
      intros [= <-] Hasc.
      change (ascending (ky :: r'.*1)). apply ascending_cons.
      change (ascending (ky :: l.*1)) in Hasc. apply ascending_cons in Hasc as [Hhd Htl].
      split; [|by apply IH].
      destruct l as [|[kz z] l]; simpl in Hins.
      * injection Hins as <-. done.
      * destruct (py_lt kx kz) as [[|]|]; simpl in Hins; [by injection Hins as <-| |done].
        destruct (insert_by kx x l); simpl in Hins; [|done]. by injection Hins as <-.
Qed.

Lemma insert_all_raise {A} e (keyed : list (pyval * A)) :
  insert_all (Raise e) keyed = Raise e.
Proof. induction keyed as [|kx keyed IH]; [done|]. exact IH. Qed.

Lemma insert_all_ok {A} (l : list (pyval * A)) keyed r :
  insert_all (Ok l) keyed = Ok r →
  r ≡ₚ l ++ keyed ∧ (ascending l.*1 → ascending r.*1).
Proof.
  revert l. induction keyed as [|[k x] keyed IH]; intros l.
  - intros [= <-]. by rewrite app_nil_r.
  - unfold insert_all. simpl.
    destruct (insert_by k x l) as [l'|] eqn:Hins; simpl.
    + intros [Hperm Hasc]%IH. split.
      * rewrite Hperm, (insert_by_perm _ _ _ _ Hins). simpl. apply Permutation_middle.
      * intros Hl. apply Hasc. by eapply insert_by_ascending.
    + fold (insert_all (@Raise (list (pyval * A)) e) keyed).
      by rewrite insert_all_raise.
Qed.

Lemma mapM_keys {A} (key : A → result pyval) (l : list A) keyed :
  mapM (fun x => k ← key x; Ok (k, x)) l = Ok keyed →
  keyed.*2 = l ∧ Forall (λ kx, key kx.2 = Ok kx.1) keyed.
Proof.
  revert keyed. induction l as [|x l IH]; intros keyed; simpl.
  - by intros [= <-].
  - destruct (key x) as [k|] eqn:Hk; simpl; [|done].
    destruct (mapM _ l) as [keyed'|]; simpl; [|done].
    intros [= <-]. destruct (IH keyed' eq_refl) as [Hl Hall].
    split; [simpl; by f_equal|]. by constructor.
Qed.

Lemma mapM_result_cons {A B} (f : A → result B) (x : A) (l : list A) :
  mapM f (x :: l) = (y ← f x; k ← mapM f l; Ok (y :: k)).
Proof. reflexivity. Qed.

Lemma mapM_of_keyed {A} (key : A → result pyval) (r : list (pyval * A)) :
  Forall (λ kx, key kx.2 = Ok kx.1) r → mapM key r.*2 = Ok r.*1.
Proof.
  induction 1 as [|[k x] r Hk _ IH]; [done|].
  change (mapM key (x :: r.*2) = Ok (k :: r.*1)).
  rewrite mapM_result_cons, IH. simpl in Hk. by rewrite Hk.
Qed.

(** What [sorted] returns is a rearrangement of its input whose keys
    ascend. *)
Lemma sorted_spec {A} (key : A → result pyval) (l r : list A) :
  sorted key l = Ok r →
  r ≡ₚ l ∧ ∃ keys, mapM key r = Ok keys ∧ ascending keys.
Proof.
  unfold sorted.
  destruct (mapM _ l) as [keyed|] eqn:Hkeyed; simpl; [|done].
  destruct (foldl _ (Ok []) keyed) as [r'|] eqn:Hfold; simpl; [|done].
  intros [= <-]. apply mapM_keys in Hkeyed as [Hl Hall].
  apply insert_all_ok in Hfold as [Hperm Hasc]. simpl in Hperm. split.
  - by rewrite Hperm, Hl.
  - exists r'.*1. split; [|by apply Hasc].
    apply mapM_of_keyed. by rewrite Hperm.
Qed.

Lemma insert_by_str {A} (kx : pyval) (x : A) l :
  is_str kx → Forall is_str l.*1 →
  ∃ r, insert_by kx x l = Ok r ∧ Forall is_str r.*1 ∧ r ≠ [].
Proof.
  intros [a ->]. induction l as [|[ky y] l IH]; simpl.
  - intros _. eexists. split; [done|]. split; [|done].
    repeat constructor. by exists a.
  - intros [[b ->] Hl]%Forall_cons. simpl.
    destruct (String.ltb a b).
    + eexists. split; [done|]. split; [|done].
      repeat constructor; [by exists a|by exists b|done].
    + destruct (IH Hl) as (r & -> & Hr & _). simpl. eexists. split; [done|].
      split; [|done]. constructor; [by exists b|done].
Qed.

Lemma insert_all_str {A} (l : list (pyval * A)) keyed :
  Forall is_str l.*1 → Forall is_str keyed.*1 →
  ∃ r, insert_all (Ok l) keyed = Ok r.
Proof.
  revert l. induction keyed as [|[k x] keyed IH]; intros l Hl; [by eexists|].
  intros [Hk Hkeyed]%Forall_cons. unfold insert_all. simpl.
  destruct (insert_by_str k x l Hk Hl) as (l' & -> & Hl' & _). simpl.
  by apply IH.
Qed.

Lemma py_lt_null_l k : py_lt (PJson JNull) k = Raise TypeError.
Proof. by destruct k as [[| | |]|]. Qed.

Lemma py_lt_null_r k : py_lt k (PJson JNull) = Raise TypeError.
Proof. by destruct k as [[|[]| |]|]. Qed.

Lemma insert_by_null {A} (x : A) l :
  l ≠ [] → insert_by (PJson JNull) x l = Raise TypeError.
Proof. destruct l as [|[ky y] l]; [done|]. intros _. simpl. by destruct ky as [[| | |]|]. Qed.

Lemma insert_all_null {A} (l : list (pyval * A)) keyed :
  Forall is_str l.*1 → Forall str_or_null keyed.*1 →
  PJson JNull ∈ keyed.*1 →
  l ≠ [] ∨ (2 ≤ length keyed)%nat →
  insert_all (Ok l) keyed = Raise TypeError.
Proof.
  revert l. induction keyed as [|[k x] keyed IH]; intros l Hl Hkeys Hnull Hlen.
  { by apply elem_of_nil in Hnull. }
  apply Forall_cons in Hkeys as [Hk Hkeys]. unfold insert_all. simpl. simpl in Hk.
  destruct Hk as [Hk| ->].
  - destruct (insert_by_str k x l Hk Hl) as (l' & -> & Hl' & Hne). simpl.
    apply IH; [done|done| |by left].
    simpl in Hnull. apply elem_of_cons in Hnull as [Hnull|Hnull]; [|done].
    destruct Hk as [a ->]. done.
  - destruct l as [|p l].
    + simpl. destruct Hlen as [?|Hlen]; [done|].
      destruct keyed as [|[k' x'] keyed]; [simpl in Hlen; lia|]. simpl.
      rewrite py_lt_null_r. simpl.
      fold (insert_all (@Raise (list (pyval * A)) TypeError) keyed).
      apply insert_all_raise.
    + rewrite insert_by_null by done. simpl.
      fold (insert_all (@Raise (list (pyval * A)) TypeError) keyed).
      apply insert_all_raise.
Qed.

Lemma mapM_by_name (l : list Container) :
  mapM (fun x => k ← sort_key by_name x; Ok (k, x)) l
  = Ok ((λ c, (opt_json (c_name c), c)) <$> l).
Proof.
  induction l as [|c l IH]; [done|]. rewrite mapM_result_cons, IH. done.
Qed.

(** X4. The [containers] property of a host, when it returns, lists
    exactly the containers added to the host, rearranged so that no
    container's sort key is strictly less than the key of the one before
    it. *)
Theorem containers_sorted_permutation (h : Host) (cs : list Container)
    (Hcs : containers h = Ok cs) :
  cs ≡ₚ _containers h
  ∧ ∃ keys, mapM (sort_key (container_order h)) cs = Ok keys ∧ ascending keys.
Proof. by apply sorted_spec. Qed.

Lemma containers_sorted_permutation_witness :
  containers host1 = Ok targets1.*2
  ∧ targets1.*2 ≡ₚ _containers host1
  ∧ (c_name <$> _containers host1) = [Some "web"; Some "db"]
  ∧ (c_name <$> targets1.*2) = [Some "db"; Some "web"].
Proof.
  assert (containers host1 = Ok targets1.*2) as Hcs by reflexivity.
  split; [exact Hcs|].
  split; [exact (proj1 (containers_sorted_permutation host1 _ Hcs))|].
  by split.
Defined.

(** X5. Ordering a host's containers by name succeeds whenever every
    container has a name, and raises [TypeError] whenever the host holds
    two or more containers of which one has no name. *)
Theorem containers_by_name (h : Host) (Horder : container_order h = by_name) :
  (Forall (λ c, is_Some (c_name c)) (_containers h) → ∃ cs, containers h = Ok cs)
  ∧ ((2 ≤ length (_containers h))%nat →
     (∃ c, c ∈ _containers h ∧ c_name c = None) →
     containers h = Raise TypeError).
Proof.
  unfold containers, sorted. rewrite Horder, mapM_by_name. simpl.
  set (keyed := (λ c, (opt_json (c_name c), c)) <$> _containers h).
  fold (insert_all (Ok []) keyed).
  assert (keyed.*1 = (λ c, opt_json (c_name c)) <$> _containers h) as Hkeys.
  { unfold keyed. rewrite <- list_fmap_compose. done. }
  split.
  - intros Hnames.
    destruct (insert_all_str [] keyed) as [r ->]; [done| |by eexists].
    rewrite Hkeys. apply Forall_fmap. eapply Forall_impl; [exact Hnames|].
    intros c [s Hs]. simpl. rewrite Hs. by exists s.
  - intros Hlen (c & Hc & Hnone).
    rewrite insert_all_null; [done|done| | |].
    + rewrite Hkeys. apply Forall_fmap, Forall_forall. intros c' _. simpl.
      destruct (c_name c') as [s|]; [left; by exists s|by right].
    + rewrite Hkeys. apply list_elem_of_fmap. exists c. by rewrite Hnone.
    + right. unfold keyed. by rewrite length_fmap.
Qed.

Lemma containers_by_name_witness :
  container_order host_with_nameless = by_name
  ∧ (2 ≤ length (_containers host_with_nameless))%nat
  ∧ (∃ c, c ∈ _containers host_with_nameless ∧ c_name c = None)
  ∧ containers host_with_nameless = Raise TypeError.
Proof.
  assert (∃ c, c ∈ _containers host_with_nameless ∧ c_name c = None) as Hnone.
  { exists nameless0. split; [|done]. right. left. }
  split; [reflexivity|]. split; [simpl; lia|]. split; [exact Hnone|].
  apply (proj2 (containers_by_name host_with_nameless eq_refl)); [simpl; lia|exact Hnone].
Defined.

(** ** The filter on a container without a name *)

(** X6. On a container whose record had no name, a name filter that is
    not an allow-listed partial name never matches (and gives [False] when
    no image filter is set), while an allow-listed one raises [TypeError]
    as soon as the image filter, if any, lets the container through. *)
Theorem container_match_nameless (c : Container) (name_filter : string)
    (Hname : c_name c = None) (Hset : name_filter ≠ EmptyString) :
  (name_filter ∉ partial_names →
     ∀ image_filter, ∃ outcome,
       _container_match c (Some name_filter) image_filter = outcome
       ∧ outcome ≠ Ok true
       ∧ (str_truthy image_filter = false → outcome = Ok false))
  ∧ (name_filter ∈ partial_names →
     _container_match c (Some name_filter) None = Raise TypeError
     ∧ ∀ image_filter image,
         c_image c = Some image → str_in image_filter image = true →
         _container_match c (Some name_filter) (Some image_filter) = Raise TypeError).
Proof.
  assert (str_truthy (Some name_filter) = true) as Ht
    by (simpl; by destruct name_filter).
  assert (∀ b, name_filter ∈ partial_names ↔ b = true →
               name_rule c name_filter = if b then Raise TypeError else Ok false) as Hrule.
  { intros b Hb. unfold name_rule. rewrite Hname.
    rewrite bool_decide_eq_false_2 by done.
    destruct b.
    - rewrite bool_decide_eq_true_2 by (by apply Hb). done.
    - rewrite bool_decide_eq_false_2; [done|]. intros ?%Hb. done. }
  split.
  - intros Hnot image_filter. eexists. split; [done|].
    unfold _container_match. rewrite Ht. simpl.
    rewrite (Hrule false) by (split; [done|discriminate]).
    destruct (str_truthy image_filter); simpl.
    + split; [|done]. destruct (py_in _ _) as [[|]|]; simpl; done.
    + by split.
  - intros Hin. split.
    + unfold _container_match. rewrite Ht. simpl. by rewrite (Hrule true).
    + intros image_filter image Himage Hsub. unfold _container_match.
      rewrite Ht, Himage. simpl. rewrite Hsub.
      destruct (negb (String.eqb image_filter "")); simpl; by rewrite (Hrule true).
Qed.

Lemma container_match_nameless_witness :
  c_name nameless0 = None ∧ "www" ≠ EmptyString ∧ "www" ∈ partial_names
  ∧ _container_match nameless0 (Some "www") None = Raise TypeError
  ∧ ("db" ∉ partial_names)
  ∧ _container_match nameless0 (Some "db") None = Ok false.
Proof.
  assert ("www" ≠ EmptyString) as Hwww by done.
  assert ("db" ≠ EmptyString) as Hdb by done.
  assert ("www" ∈ partial_names) as Hin by (by left).
  assert ("db" ∉ partial_names) as Hnot
    by (by apply (bool_decide_eq_false_1 ("db" ∈ partial_names))).
  split; [reflexivity|]. split; [exact Hwww|]. split; [exact Hin|]. split.
  - exact (proj1 (proj2 (container_match_nameless nameless0 "www" eq_refl Hwww) Hin)).
  - split; [exact Hnot|].
    destruct (proj1 (container_match_nameless nameless0 "db" eq_refl Hdb) Hnot None)
      as (outcome & <- & _ & Hfalse).
    exact (Hfalse eq_refl).
Defined.

(** ** The domain of construction *)

Lemma split1_cons (c a : ascii) (s : string) :
  split1 c (String a s)
  = if Ascii.eqb a c then [EmptyString; s]
    else match split1 c s with
         | p :: ps => String a p :: ps
         | [] => [String a EmptyString]
         end.
Proof. reflexivity. Qed.

Lemma prefix_char_ne (c a : ascii) (s : string) :
  a ≠ c → String.prefix (String c EmptyString) (String a s) = false.
Proof. intros H. simpl. destruct (ascii_dec c a); [congruence|done]. Qed.

Lemma split1_with_separator (s : string) :
  str_in ":" s = true → ∃ tag, item1 (split1 ":" s) = Ok tag.
Proof.
  induction s as [|a s IH]; [done|].
  rewrite str_in_cons, split1_cons.
  destruct (Ascii.eqb_spec a ":") as [->|Hne]; [by eexists|].
  rewrite prefix_char_ne by done. simpl orb.
  intros (tag & Htag)%IH. destruct (split1 ":" s) as [|p [|q ps]]; try done.
  by eexists.
Qed.

Lemma get_version_total raw labels image env_or_label :
  r_labels raw = Some labels → r_image raw = Some image →
  str_in ":" image = true →
  env_or_label = (str_truthy (labels !! "org.opencontainers.image.version")
                  || bool_decide (is_Some (r_env raw))) →
  env_or_label = true →
  ∃ v, _get_version raw = Ok v.
Proof.
  intros Hl Hi Hc -> Hor. unfold _get_version. rewrite Hl, Hi. simpl.
  rewrite image_name_of_ok. simpl.
  destruct (split1_with_separator image Hc) as [tag ->]. simpl.
  destruct (str_truthy (labels !! _)) eqn:Hlabel; simpl.
  - repeat (rewrite image_fallback_truthy by done; simpl). by eexists.
  - simpl in Hor. apply bool_decide_eq_true in Hor as [env Henv].
    unfold env_of at 1. rewrite Henv. simpl.
    repeat (rewrite (image_fallback_spec raw env) by done; simpl). by eexists.
Qed.

(** X7. Construction succeeds exactly for the records that have labels,
    an image reference containing [:], and either a non-empty OCI
    image-version label or an [env] entry. *)
Theorem Container_init_domain fromisoformat clock raw :
  (∃ c, Container_init fromisoformat clock raw = Ok c)
  ↔ ∃ labels image,
      r_labels raw = Some labels ∧ r_image raw = Some image
      ∧ str_in ":" image = true
      ∧ (str_truthy (labels !! "org.opencontainers.image.version") = true
         ∨ is_Some (r_env raw)).
Proof.
  split.
  - intros [c Hc]. apply Container_init_ok in Hc as (Hv & _).
    revert Hv. unfold _get_version.
    destruct (r_labels raw) as [labels|]; [|done].
    destruct (r_image raw) as [image|]; [|done]. simpl.
    rewrite image_name_of_ok. simpl.
    destruct (str_in ":" image) eqn:Hcolon.
    2:{ by rewrite split1_no_separator. }
    destruct (item1 _) as [tag|]; [|done]. simpl.
    intros Hv. exists labels, image. repeat (split; [done|]).
    destruct (str_truthy (labels !! _)) eqn:Hlabel; [by left|right].
    simpl in Hv. unfold env_of at 1 in Hv.
    destruct (r_env raw); [by eexists|done].
  - intros (labels & image & Hl & Hi & Hc & Hor).
    destruct (get_version_total raw labels image _ Hl Hi Hc eq_refl) as [v Hv].
    { destruct Hor as [->|Henv]; [done|]. rewrite bool_decide_eq_true_2 by done.
      apply orb_true_r. }
    unfold Container_init. rewrite !parse_ns_iso8601_total. simpl. rewrite Hv.
    by eexists.
Qed.

(** ** Timestamp parsing *)

Lemma split_cons (c a : ascii) (s : string) :
  split c (String a s)
  = if Ascii.eqb a c then EmptyString :: split c s
    else match split c s with
         | p :: ps => String a p :: ps
         | [] => [String a EmptyString]
         end.
Proof. reflexivity. Qed.

Lemma split_length (c : ascii) (s : string) :
  length (split c s) = S (count_char c s).
Proof.
  induction s as [|a s IH]; [done|]. rewrite split_cons. simpl count_char.
  destruct (Ascii.eqb a c); simpl; [by rewrite IH|].
  destruct (split c s); simpl in *; lia.
Qed.

Lemma str_in_char_count (c : ascii) (s : string) :
  str_in (String c EmptyString) s = negb (Nat.eqb (count_char c s) 0).
Proof.
  induction s as [|a s IH]; [done|]. rewrite str_in_cons. simpl count_char.
  destruct (Ascii.eqb_spec a c) as [->|Hne].
  - simpl. destruct (ascii_dec c c); [|done]. by rewrite prefix_empty.
  - rewrite IH. simpl. destruct (ascii_dec c a); [congruence|done].
Qed.

Lemma count_char_app (c : ascii) (s t : string) :
  count_char c (s +:+ t) = (count_char c s + count_char c t)%nat.
Proof.
  induction s as [|a s IH]; [done|].
  change (count_char c (String a (s +:+ t))
          = (count_char c (String a s) + count_char c t)%nat).
  simpl. rewrite IH. lia.
Qed.

Lemma count_char_repeat_ne (c z : ascii) (n : nat) :
  z ≠ c → count_char c (repeat_char z n) = O.
Proof.
  intros H. induction n as [|n IH]; [done|]. simpl.
  by rewrite (proj2 (Ascii.eqb_neq z c)), IH.
Qed.

Lemma count_char_rstrip (c z : ascii) (s : string) :
  z ≠ c → count_char c (rstrip z s) = count_char c s.
Proof.
  intros H. destruct (rstrip_decompose z s) as (n & Hs & _).
  rewrite Hs at 2. rewrite count_char_app, count_char_repeat_ne by done. lia.
Qed.

Lemma rstrip_id (c : ascii) (s : string) :
  last_char s ≠ Some c → rstrip c s = s.
Proof.
  induction s as [|a s IH]; [done|]. simpl.
  destruct s as [|b s].
  - simpl. intros H. destruct (Ascii.eqb_spec a c) as [->|]; [done|done].
  - intros H. rewrite IH by done. simpl. by rewrite andb_false_r.
Qed.

Lemma split_no_separator (c : ascii) (s : string) :
  count_char c s = O → split c s = [s].
Proof.
  induction s as [|a s IH]; [done|]. rewrite split_cons. simpl.
  destruct (Ascii.eqb a c); [done|]. simpl. intros H. by rewrite IH.
Qed.

Lemma split_at_separator (c : ascii) (s t : string) :
  count_char c s = O → split c (s +:+ String c t) = s :: split c t.
Proof.
  induction s as [|a s IH].
  - intros _. change (split c (String c t) = EmptyString :: split c t).
    rewrite split_cons. by rewrite Ascii.eqb_refl.
  - change (count_char c (String a s) = O
            → split c (String a (s +:+ String c t)) = String a s :: split c t).
    rewrite split_cons. simpl.
    destruct (Ascii.eqb a c); [done|]. simpl. intros H. by rewrite IH.
Qed.

Lemma last_char_app_cons (s : string) (a : ascii) (t : string) :
  last_char (s +:+ String a t) = last_char (String a t).
Proof.
  induction s as [|b s IH]; [done|].
  change (last_char (String b (s +:+ String a t)) = last_char (String a t)).
  rewrite <- IH. simpl. by destruct (s +:+ String a t) eqn:E; [destruct s|].
Qed.

Lemma app_str_assoc (a b c : string) : (a +:+ b) +:+ c = a +:+ (b +:+ c).
Proof.
  induction a as [|x a IH]; [done|].
  change (String x ((a +:+ b) +:+ c) = String x (a +:+ (b +:+ c))). by f_equal.
Qed.

(** X8. A timestamp with one dot and trailing [Z]s is handed to the
    parser without the [Z]s and with at most six digits of its fraction:
    nanosecond timestamps are cut to microseconds, not rounded; the
    result is the parsed instant, or the clock when the parser rejects
    the text. *)
Theorem parse_truncates_fraction fromisoformat clock (ts frac : string) (n : nat)
    (Hts : count_char "." ts = O) (Hfrac : count_char "." frac = O)
    (Hlast : last_char frac ≠ Some "Z"%char) :
  parse_ns_iso8601 fromisoformat clock
    (PJson (JStr (ts +:+ "." +:+ frac +:+ repeat_char "Z" n)))
  = Ok (default clock (fromisoformat (ts +:+ "." +:+ str_take 6 frac))).
Proof.
  rewrite parse_ns_iso8601_total. f_equal. unfold parse_ns_iso8601_try.
  assert (ts +:+ "." +:+ frac +:+ repeat_char "Z" n
          = (ts +:+ "." +:+ frac) +:+ repeat_char "Z" n) as ->.
  { by rewrite !app_str_assoc. }
  rewrite rstrip_repeat, rstrip_id.
  2:{ change (ts +:+ "." +:+ frac) with (ts +:+ String "." frac).
      rewrite last_char_app_cons. destruct frac as [|a frac]; [done|].
      exact Hlast. }
  rewrite (str_in_char_count "." (ts +:+ "." +:+ frac)).
  change (ts +:+ "." +:+ frac) with (ts +:+ String "." frac).
  rewrite count_char_app. simpl count_char. rewrite Hts, Hfrac. simpl negb. cbv iota.
  rewrite split_at_separator, split_no_separator by done. simpl.
  by destruct (fromisoformat _).
Qed.

Lemma parse_truncates_fraction_witness :
  count_char "." "2024-01-01T00:00:00" = O
  ∧ count_char "." "123456789" = O
  ∧ last_char "123456789" ≠ Some "Z"%char
  ∧ parse_ns_iso8601 iso_sample clock0 (PJson (JStr "2024-01-01T00:00:00.123456789Z"))
    = Ok (Datetime 1704067200123456).
Proof.
  assert (last_char "123456789" ≠ Some "Z"%char) as Hlast by done.
  split; [reflexivity|]. split; [reflexivity|]. split; [exact Hlast|].
  exact (parse_truncates_fraction iso_sample clock0 "2024-01-01T00:00:00" "123456789" 1
           eq_refl eq_refl Hlast).
Defined.

(** X9. [parse_ns_iso8601] answers with the clock, whatever the parser
    accepts, for a missing value, a number, a [datetime], and every
    string with two or more dots; and for a string without a dot when the
    parser rejects it once its trailing [Z]s are removed. *)
Theorem parse_falls_back fromisoformat clock :
  parse_ns_iso8601 fromisoformat clock (PJson JNull) = Ok clock
  ∧ (∀ n, parse_ns_iso8601 fromisoformat clock (PJson (JNum n)) = Ok clock)
  ∧ (∀ t, parse_ns_iso8601 fromisoformat clock (PDatetime t) = Ok clock)
  ∧ (∀ s, (2 ≤ count_char "." s)%nat →
          parse_ns_iso8601 fromisoformat clock (PJson (JStr s)) = Ok clock)
  ∧ (∀ s, count_char "." s = O → fromisoformat (rstrip "Z" s) = None →
          parse_ns_iso8601 fromisoformat clock (PJson (JStr s)) = Ok clock).
Proof.
  repeat split; try reflexivity.
  - intros s Hs. rewrite parse_ns_iso8601_total. f_equal. unfold parse_ns_iso8601_try.
    rewrite (str_in_char_count "." (rstrip "Z" s)).
    pose proof (split_length "." (rstrip "Z" s)) as Hlen.
    rewrite count_char_rstrip in * by done.
    destruct (count_char "." s) as [|[|k]] eqn:Hk; [lia|lia|]. simpl negb. cbv iota.
    by destruct (split "." (rstrip "Z" s)) as [|a [|b [|c l]]].
  - intros s Hs Hnone. rewrite parse_ns_iso8601_total. f_equal.
    unfold parse_ns_iso8601_try.
    rewrite (str_in_char_count "." (rstrip "Z" s)), count_char_rstrip, Hs by done.
    simpl. by rewrite Hnone.
Qed.

(** ** Restarting, and quiet actions *)

(** X10. [execute_restart] sends its one request and returns the body it
    received. An HTTP error is always reported with the error glyph and
    the whole error body, whatever its detail; a 2xx reply is reported by
    its [status]; a 2xx reply without [status] raises [KeyError] after
    the request was sent, quiet or not. *)
Theorem execute_restart_classification client host_id container_id w :
  let path := execute_restart_path host_id container_id in
  let sent := requests w ++ [POST path []] in
  (∀ error, ep_post client path = HttpError error →
     execute_restart client host_id container_id false w
     = (World sent (stdout w ++ [LineDict "❌ " error]), Ok error)
     ∧ execute_restart client host_id container_id true w
       = (World sent (stdout w), Ok error))
  ∧ (∀ result message, ep_post client path = Reply result →
       result !! "status" = Some (JStr "success") →
       result !! "message" = Some message →
       execute_restart client host_id container_id false w
       = (World sent (stdout w ++ [Line ("✅ " +:+ json_str message)]), Ok result))
  ∧ (∀ result status message, ep_post client path = Reply result →
       result !! "status" = Some status → status ≠ JStr "success" →
       result !! "message" = Some message →
       execute_restart client host_id container_id false w
       = (World sent (stdout w ++ [Line ("❌ " +:+ json_str message)]), Ok result))
  ∧ (∀ result quiet, ep_post client path = Reply result →
       result !! "status" = None →
       execute_restart client host_id container_id quiet w
       = (World sent (stdout w), Raise (KeyError "status"))).
Proof.
  intros path sent. repeat split.
  - unfold execute_restart. fold path.
    match goal with H : ep_post _ _ = _ |- _ => rewrite H end. reflexivity.
  - unfold execute_restart. fold path.
    match goal with H : ep_post _ _ = _ |- _ => rewrite H end. reflexivity.
  - intros result message Hpost Hstatus Hmessage. unfold execute_restart. fold path.
    rewrite Hpost. unfold report_result, mbind, io_bind, send, lift, subscript. simpl.
    rewrite Hstatus. simpl. rewrite Hmessage. reflexivity.
  - intros result status message Hpost Hstatus Hne Hmessage.
    unfold execute_restart. fold path.
    rewrite Hpost. unfold report_result, mbind, io_bind, send, lift, subscript. simpl.
    rewrite Hstatus. simpl. rewrite json_eq_str_false by done.
    rewrite Hmessage. reflexivity.
  - intros result quiet Hpost Hstatus. unfold execute_restart. fold path.
    rewrite Hpost. unfold report_result, mbind, io_bind, send, lift, subscript. simpl.
    rewrite Hstatus. reflexivity.
Qed.

Lemma execute_restart_classification_witness :
  ep_post client0 (execute_restart_path (Some "h1") (Some "abc123"))
  = Reply {[ "status" := JStr "success"; "message" := JStr "done" ]}
  ∧ execute_restart client0 (Some "h1") (Some "abc123") false world0
    = (World [POST "/hosts/h1/containers/abc123/restart" []] [Line "✅ done"],
       Ok {[ "status" := JStr "success"; "message" := JStr "done" ]}).
Proof.
  split; [reflexivity|].
  destruct (execute_restart_classification client0 (Some "h1") (Some "abc123") world0)
    as (_ & Hsuccess & _).
  exact (Hsuccess _ (JStr "done") eq_refl eq_refl eq_refl).
Defined.

(** X11. The [quiet] flag of [execute_update] and [execute_restart] only
    silences them: the quiet call sends the same request, prints nothing,
    and returns what the loud call returns whenever the loud call
    returns; a quiet call that raises means the loud call raises the
    same exception. *)
Theorem quiet_only_silences m client host_id container_id w :
  ∃ w_loud r_loud w_quiet r_quiet,
    action_of m client host_id container_id false w = (w_loud, r_loud)
    ∧ action_of m client host_id container_id true w = (w_quiet, r_quiet)
    ∧ requests w_quiet = requests w_loud
    ∧ stdout w_quiet = stdout w
    ∧ (∀ body, r_loud = Ok body → r_quiet = Ok body)
    ∧ (∀ e, r_quiet = Raise e → r_loud = Raise e).
Proof.
  destruct m; simpl.
  - unfold execute_update, report_result.
    unfold mbind, io_bind, send, print, lift, mret, io_ret, subscript. simpl.
    destruct (ep_post client _) as [result|error].
    + destruct (result !! "status") as [status|]; simpl; [|by eexists _, _, _, _].
      destruct (json_eq_str status "success"); simpl;
        (destruct (result !! "message"); simpl; by eexists _, _, _, _).
    + destruct (error !! "detail") as [detail|]; simpl; [|by eexists _, _, _, _].
      destruct (json_eq_str detail _); simpl; by eexists _, _, _, _.
  - unfold execute_restart, report_result.
    unfold mbind, io_bind, send, print, lift, mret, io_ret, subscript. simpl.
    destruct (ep_post client _) as [result|error].
    + destruct (result !! "status") as [status|]; simpl; [|by eexists _, _, _, _].
      destruct (json_eq_str status "success"); simpl;
        (destruct (result !! "message"); simpl; by eexists _, _, _, _).
    + by eexists _, _, _, _.
Qed.

(** ** The wording of [last_checked] *)














Example last_checked_examples :
  last_checked clock0 (Datetime (timestamp_us clock0 - 25 * 3600 * 1000000)) = " yesterday ago"
  ∧ last_checked clock0 (Datetime (timestamp_us clock0 + 3 * 86400 * 1000000)) = "in 3 days ago"
  ∧ last_checked clock0 (Datetime (timestamp_us clock0 - 90 * 1000000)) = "1 minute ago".
Proof. repeat split. Qed.

(** ** What [get_container_status] hands back *)

Lemma container_match_ext c1 c2 name_match image_match :
  c_name c1 = c_name c2 → c_image c1 = c_image c2 →
  _container_match c1 name_match image_match
  = _container_match c2 name_match image_match.
Proof.
  intros Hn Hi. unfold _container_match, name_rule. by rewrite Hn, Hi.
Qed.

Lemma hosts_add_container_entry hosts k c k' h' :
  (k', h') ∈ hosts_add_container hosts k c →
  (k', h') ∈ hosts ∨ (k' = k ∧ ∃ h, (k, h) ∈ hosts ∧ h' = add_container h c).
Proof.
  induction hosts as [|[k0 h0] hosts IH]; simpl; [by intros ?%elem_of_nil|].
  case_bool_decide as Hk.
  - intros [[= -> ->]|Hin]%elem_of_cons.
    + right. split; [done|]. exists h0. split; [rewrite <- Hk; left|done].
    + left. by right.
  - intros [[= -> ->]|Hin]%elem_of_cons; [left; left|].
    destruct (IH Hin) as [?|(-> & h & ? & ->)]; [left; by right|].
    right. split; [done|]. exists h. split; [by right|done].
Qed.

Lemma reconciled_add args hosts c :
  reconciled args hosts →
  _container_match c (a_container args) (a_image args) = Ok true →
  (a_updates_only args = true → ∃ ua, update_available c = Ok ua ∧ truthy ua = true) →
  reconciled args (hosts_add_container hosts (c_host_id c) c).
Proof.
  intros Hinv Hmatch Hup k' h' [Hin|(-> & h & Hin & ->)]%hosts_add_container_entry;
    [by apply Hinv|].
  destruct (Hinv _ _ Hin) as [Hhost Hcs]. split; [exact Hhost|].
  intros c' [Hc'| ->%list_elem_of_singleton]%elem_of_app; [by apply Hcs|].
  repeat split; done.
Qed.

Lemma reconcile_one_reconciled fromisoformat clock client args updates raw hosts w w' hosts' :
  reconcile_one fromisoformat clock client args updates raw hosts w = (w', Ok hosts') →
  reconciled args hosts → reconciled args hosts'.
Proof.
  unfold reconcile_one. rewrite io_bind_eq. unfold lift at 1.
  destruct (Container_init fromisoformat clock raw) as [c|] eqn:Hinit; [|discriminate].
  destruct (hosts_has hosts (c_host_id c)); [|by intros [= <- <-]].
  rewrite io_bind_eq. unfold lift at 1.
  destruct (_container_match c _ _) as [[|]|] eqn:Hmatch; simpl;
    [|by intros [= <- <-]|discriminate].
  rewrite io_bind_eq.
  assert (∀ c1 w1,
    c_name c1 = c_name c → c_image c1 = c_image c →
    ((if a_updates_only args
      then lift (update_available c1) ≫= λ ua, mret (negb (truthy ua))
      else mret false)
     ≫= λ skip : bool,
          if skip then mret hosts
          else mret (hosts_add_container hosts (c_host_id c1) c1)) w1
    = (w', Ok hosts') →
    reconciled args hosts → reconciled args hosts') as Hrest.
  { intros c1 w1 Hn Hi. unfold mbind, io_bind, mret, io_ret, lift.
    assert (_container_match c1 (a_container args) (a_image args) = Ok true) as Hm1
      by (rewrite <- Hmatch; by apply container_match_ext).
    destruct (a_updates_only args) eqn:Hup; simpl.
    - destruct (update_available c1) as [ua|] eqn:Hua; simpl; [|discriminate].
      destruct (truthy ua) eqn:Hta; simpl; intros [= <- <-]; [|done].
      intros Hinv. apply reconciled_add; [exact Hinv|exact Hm1|]. intros _. by exists ua.
    - intros [= <- <-] Hinv. apply reconciled_add; [exact Hinv|exact Hm1|]. congruence. }
  case_bool_decide.
  - unfold call. rewrite !io_bind_eq. unfold send at 1.
    destruct (ep_get client (update_status_path c)) as [body|body]; simpl;
      [|discriminate].
    destruct (set_update_status _ _ _ _) as [c1|] eqn:Hset; simpl; [|discriminate].
    apply set_update_status_shape in Hset. apply Hrest; by rewrite Hset.
  - unfold mret at 1, io_ret at 1. by apply Hrest.
Qed.

Lemma reconcile_loop_reconciled fromisoformat clock client args updates data hosts w w' hosts' :
  for_each data (reconcile_one fromisoformat clock client args updates) hosts w
    = (w', Ok hosts') →
  reconciled args hosts → reconciled args hosts'.
Proof.
  revert hosts w. induction data as [|raw data IH]; intros hosts w.
  - by intros [= <- <-].
  - rewrite for_each_cons.
    destruct (reconcile_one _ _ _ _ _ raw hosts w) as [w1 [hosts1|]] eqn:Hone;
      [|discriminate].
    intros Hloop Hinv. eapply IH; [exact Hloop|].
    by eapply reconcile_one_reconciled.
Qed.

Lemma hosts_setitem_keys hosts k h :
  (hosts_setitem hosts k h).*1
  = if bool_decide (k ∈ hosts.*1) then hosts.*1 else hosts.*1 ++ [k].
Proof.
  induction hosts as [|[k0 h0] hosts IH]; [done|]. simpl.
  destruct (decide (k0 = k)) as [->|Hne].
  - rewrite bool_decide_eq_true_2 by done. simpl.
    rewrite bool_decide_eq_true_2 by left. done.
  - rewrite bool_decide_eq_false_2 by done.
    change (k0 :: (hosts_setitem hosts k h).*1
            = if bool_decide (k ∈ k0 :: hosts.*1) then k0 :: hosts.*1
              else (k0 :: hosts.*1) ++ [k]).
    rewrite IH. destruct (decide (k ∈ hosts.*1)) as [Hin|Hnin].
    + rewrite !bool_decide_eq_true_2; [done|by right|done].
    + rewrite !bool_decide_eq_false_2; [done| |done].
      intros [?|?]%elem_of_cons; congruence.
Qed.

Lemma select_hosts_spec args data :
  NoDup (select_hosts args data).*1
  ∧ ∀ k h, (k, h) ∈ select_hosts args data → host_ok args k h ∧ _containers h = [].
Proof.
  unfold select_hosts.
  assert (∀ acc,
    NoDup acc.*1 ∧ (∀ k h, (k, h) ∈ acc → host_ok args k h ∧ _containers h = []) →
    let r := foldl (fun hosts host =>
           if negb (str_truthy (a_host args)) || bool_decide (rh_name host = a_host args)
           then hosts_setitem hosts (rh_id host)
                  (set_container_order (Host_init host) (a_order args))
           else hosts) acc data in
    NoDup r.*1 ∧ (∀ k h, (k, h) ∈ r → host_ok args k h ∧ _containers h = [])) as H.
  { induction data as [|host data IH]; intros acc Hacc; [exact Hacc|]. simpl.
    apply IH. destruct (negb _ || _) eqn:Hkeep; [|exact Hacc].
    destruct Hacc as [Hnd Hacc]. split.
    - rewrite hosts_setitem_keys.
      destruct (decide (rh_id host ∈ acc.*1)) as [Hin|Hnin].
      + by rewrite bool_decide_eq_true_2.
      + rewrite bool_decide_eq_false_2 by done.
        apply NoDup_app. split; [done|]. split; [|apply NoDup_singleton].
        intros x Hx ?%list_elem_of_singleton. congruence.
    - intros k h [?|[= -> ->]]%hosts_setitem_elem; [by apply Hacc|].
      split; [|done]. repeat split. simpl. intros Ht. rewrite Ht in Hkeep.
      simpl in Hkeep. by apply bool_decide_eq_true in Hkeep. }
  apply H. split; [constructor|]. by intros ? ? ?%elem_of_nil.
Qed.

(** X13. What [get_container_status] returns is a table with distinct
    keys in which every host is filed under its own id, carries the
    requested sort order, and has the name asked for by [--host] when that
    filter is set; and every container it holds belongs to that host, refers
    back to it, passed the name and image filters, and has an update
    available when [--updates-only] is set. *)
Theorem get_container_status_reconciled fromisoformat clock client args w w' hosts
    (Hrun : get_container_status fromisoformat clock client args w = (w', Ok hosts)) :
  NoDup hosts.*1 ∧ reconciled args hosts.
Proof.
  revert Hrun. unfold get_container_status, call.
  unfold mbind at 1 2 3 4 5 6, io_bind, send, mret, io_ret, lift. simpl.
  destruct (ep_hosts client) as [host_data|]; [|discriminate].
  destruct (ep_summary client) as [updates|]; [|discriminate].
  destruct (ep_containers client) as [data|]; [|discriminate].
  intros Hloop. destruct (select_hosts_spec args host_data) as [Hnd Hsel]. split.
  - apply reconcile_loop in Hloop as (_ & _ & _ & _ & -> & _). exact Hnd.
  - eapply reconcile_loop_reconciled; [exact Hloop|].
    intros k h Hin. destruct (Hsel k h Hin) as [Hh Hempty]. split; [done|].
    rewrite Hempty. by intros c ?%elem_of_nil.
Qed.

Lemma get_container_status_reconciled_witness :
  get_container_status iso_sample clock0 client0 args0 world0 = (world1, Ok hosts1)
  ∧ NoDup hosts1.*1 ∧ reconciled args0 hosts1.
Proof.
  assert (get_container_status iso_sample clock0 client0 args0 world0
          = (world1, Ok hosts1)) as Hrun by (vm_compute; reflexivity).
  split; [exact Hrun|].
  exact (get_container_status_reconciled iso_sample clock0 client0 args0 world0 world1
           hosts1 Hrun).
Defined.

(** ** What [get_container_status] sends *)

Lemma reconcile_one_reads_only fromisoformat clock client args updates raw hosts w w' r :
  reconcile_one fromisoformat clock client args updates raw hosts w = (w', r) →
  stdout w' = stdout w
  ∧ ∃ reqs, requests w' = requests w ++ reqs ∧ Forall is_get reqs.
Proof.
  assert (stdout w = stdout w
          ∧ ∃ reqs, requests w = requests w ++ reqs ∧ Forall is_get reqs) as Hsame.
  { split; [done|]. exists []. by rewrite app_nil_r. }
  unfold reconcile_one. rewrite io_bind_eq. unfold lift at 1.
  destruct (Container_init fromisoformat clock raw) as [c|]; [|by intros [= <- <-]].
  destruct (hosts_has hosts (c_host_id c)); [|by intros [= <- <-]].
  rewrite io_bind_eq. unfold lift at 1.
  destruct (_container_match c _ _) as [[|]|]; simpl; try by intros [= <- <-].
  rewrite io_bind_eq.
  case_bool_decide.
  - unfold call. rewrite !io_bind_eq. unfold send at 1.
    set (w1 := World _ _).
    assert (stdout w1 = stdout w
            ∧ ∃ reqs, requests w1 = requests w ++ reqs ∧ Forall is_get reqs) as Hone.
    { split; [done|]. eexists. split; [done|]. by repeat constructor. }
    destruct (ep_get client (update_status_path c)) as [body|body]; simpl;
      [|by intros [= <- <-]].
    unfold mbind, io_bind, mret, io_ret, lift.
    destruct (set_update_status _ _ _ _) as [c1|]; simpl; [|by intros [= <- <-]].
    destruct (a_updates_only args); simpl.
    + destruct (update_available c1) as [ua|]; simpl; [|by intros [= <- <-]].
      by destruct (negb (truthy ua)); simpl; intros [= <- <-].
    + by intros [= <- <-].
  - unfold mbind, io_bind, mret, io_ret, lift.
    destruct (a_updates_only args); simpl.
    + destruct (update_available c) as [ua|]; simpl; [|by intros [= <- <-]].
      by destruct (negb (truthy ua)); simpl; intros [= <- <-].
    + by intros [= <- <-].
Qed.

Lemma reconcile_loop_reads_only fromisoformat clock client args updates data hosts w w' r :
  for_each data (reconcile_one fromisoformat clock client args updates) hosts w = (w', r) →
  stdout w' = stdout w
  ∧ ∃ reqs, requests w' = requests w ++ reqs ∧ Forall is_get reqs.
Proof.
  revert hosts w. induction data as [|raw data IH]; intros hosts w.
  - intros [= <- <-]. split; [done|]. exists []. by rewrite app_nil_r.
  - rewrite for_each_cons.
    destruct (reconcile_one _ _ _ _ _ raw hosts w) as [w1 r1] eqn:Hone.
    apply reconcile_one_reads_only in Hone as (Hout & reqs & Hreq & Hget).
    destruct r1 as [hosts1|e].
    + intros (Hout' & reqs' & Hreq' & Hget')%IH. split; [congruence|].
      exists (reqs ++ reqs'). split; [by rewrite Hreq', Hreq, app_assoc|].
      by apply Forall_app.
    + intros [= <- <-]. split; [done|]. by exists reqs.
Qed.

(** The requests and the output of [get_container_status], whatever its
    outcome. *)
Lemma get_container_status_gets fromisoformat clock client args w w' r
    (Hrun : get_container_status fromisoformat clock client args w = (w', r)) :
  stdout w' = stdout w
  ∧ ∃ reqs, requests w' = requests w ++ reqs ∧ Forall is_get reqs.
Proof.
  revert Hrun. unfold get_container_status, call.
  unfold mbind at 1 2 3 4 5 6, io_bind, send, mret, io_ret, lift. simpl.
  destruct (ep_hosts client) as [host_data|].
  2:{ intros [= <- <-]. split; [done|]. eexists. split; [done|]. by repeat constructor. }
  destruct (ep_summary client) as [updates|].
  2:{ intros [= <- <-]. split; [done|]. exists [GET "hosts"; GET "updates/summary"].
      simpl. split; [by rewrite <- app_assoc|]. by repeat constructor. }
  destruct (ep_containers client) as [data|].
  2:{ intros [= <- <-]. split; [done|].
      exists [GET "hosts"; GET "updates/summary"; GET "containers"].
      simpl. split; [by rewrite <- !app_assoc|]. by repeat constructor. }
  intros (Hout & reqs & Hreq & Hget)%reconcile_loop_reads_only. split; [done|].
  exists ([GET "hosts"; GET "updates/summary"; GET "containers"] ++ reqs).
  split.
  - rewrite Hreq. simpl. by rewrite <- !app_assoc.
  - apply Forall_app. split; [by repeat constructor|done].
Qed.

(** X14. [get_container_status] only reads: whether it returns or raises,
    every request it has sent is a GET and it has printed nothing. *)
Theorem get_container_status_reads_only fromisoformat clock client args w w' r
    (Hrun : get_container_status fromisoformat clock client args w = (w', r)) :
  stdout w' = stdout w
  ∧ ∃ reqs, requests w' = requests w ++ reqs ∧ Forall is_get reqs.
Proof.
  exact (get_container_status_gets fromisoformat clock client args w w' r Hrun).
Qed.

Lemma get_container_status_reads_only_witness :
  get_container_status iso_sample clock0 client0 args0 world0 = (world1, Ok hosts1)
  ∧ stdout world1 = stdout world0
  ∧ ∃ reqs, requests world1 = requests world0 ++ reqs ∧ Forall is_get reqs.
Proof.
  assert (get_container_status iso_sample clock0 client0 args0 world0
          = (world1, Ok hosts1)) as Hrun by (vm_compute; reflexivity).
  split; [exact Hrun|].
  exact (get_container_status_reads_only iso_sample clock0 client0 args0 world0 world1
           (Ok hosts1) Hrun).
Defined.



(** ** Checking for updates, and the branches of [main] *)

Lemma check_loop_flat client args hosts targets w :
  all_targets hosts = Ok targets →
  check_loop client args hosts w = for_each targets (check_step client args) tt w.
Proof.
  revert targets w. induction hosts as [|[k host] hosts IH]; intros targets w.
  - by intros [= <-].
  - simpl. destruct (containers host) as [cs|] eqn:Hcs; [|discriminate]. simpl.
    destruct (all_targets hosts) as [rest|] eqn:Hrest; [|discriminate]. simpl.
    intros [= <-]. rewrite for_each_app, io_bind_eq, for_each_fmap.
    unfold check_loop. simpl. rewrite !io_bind_eq. unfold lift at 1. rewrite Hcs.
    unfold check_step. simpl.
    destruct (for_each cs _ tt w) as [w' [[]|e]]; [|done].
    by apply IH.
Qed.

Lemma check_updates_run client host_id container_id w :
  check_updates client host_id container_id w
  = (World (requests w ++ [POST (check_path host_id container_id) []]) (stdout w),
     match ep_post client (check_path host_id container_id) with
     | Reply _ => Ok tt
     | HttpError body => Raise (HTTPError body)
     end).
Proof.
  unfold check_updates, check_path, call.
  unfold mbind, io_bind, send, mret, io_ret, lift.
  destruct (str_truthy host_id && str_truthy container_id); simpl;
    by destruct (ep_post client _).
Qed.

Lemma check_step_run client args target w :
  check_step client args target tt w
  = check_updates client (h_id target.1) (c_id target.2)
      (World (requests w)
         (stdout w ++ if a_json args then []
                      else [Line ("Checking update for host " +:+ opt_str (h_name target.1)
                                  +:+ " - " +:+ opt_str (h_id target.1)
                                  +:+ " container " +:+ opt_str (c_name target.2)
                                  +:+ " - " +:+ opt_str (c_id target.2))])).
Proof.
  unfold check_step. rewrite io_bind_eq.
  destruct (a_json args); simpl; [|done].
  unfold mret, io_ret. rewrite app_nil_r. by destruct w.
Qed.

(** X16. The check loop posts one check per container, host by host in
    the order of the table and each host's containers in its sort order.
    When the service accepts every POST the loop returns, having sent
    exactly those requests and printed one line per container, none with
    [--json]. When the first check is refused the loop raises that HTTP
    error and has sent that one request only. *)
Theorem check_loop_requests client args hosts targets w
    (Hsorted : all_targets hosts = Ok targets) :
  ((∀ path, ∃ body, ep_post client path = Reply body) →
     ∃ w' lines,
       check_loop client args hosts w = (w', Ok tt)
       ∧ extends w w' (check_request <$> targets) lines
       ∧ length lines = if a_json args then O else length targets)
  ∧ (∀ target rest body,
       targets = target :: rest →
       ep_post client (check_path (h_id target.1) (c_id target.2)) = HttpError body →
       ∃ w', check_loop client args hosts w = (w', Raise (HTTPError body))
             ∧ requests w' = requests w ++ [check_request target]).
Proof.
  rewrite (check_loop_flat _ _ _ _ _ Hsorted). clear Hsorted. split.
  - intros Hok. revert w. induction targets as [|target rest IH]; intros w.
    + exists w, []. split; [done|]. split; [apply extends_refl|by destruct (a_json args)].
    + rewrite for_each_cons, check_step_run, check_updates_run.
      destruct (Hok (check_path (h_id target.1) (c_id target.2))) as [body ->].
      set (w1 := World _ _).
      destruct (IH w1) as (w' & lines & -> & [Hreq Hout] & Hlen).
      eexists w', (_ ++ lines). split; [done|]. split.
      * split; [rewrite Hreq; simpl; by rewrite <- app_assoc|].
        rewrite Hout. simpl. by rewrite <- app_assoc.
      * rewrite length_app, Hlen. by destruct (a_json args).
  - intros target rest body -> Herr.
    rewrite for_each_cons, check_step_run, check_updates_run, Herr.
    by eexists.
Qed.

Lemma check_loop_requests_witness :
  all_targets hosts1 = Ok targets1
  ∧ (check_request <$> targets1)
    = [POST "hosts/h1/containers/def456/check-update" [];
       POST "hosts/h1/containers/abc123/check-update" []]
  ∧ ∃ w' lines,
      check_loop client_accepting args0 hosts1 world0 = (w', Ok tt)
      ∧ extends world0 w' (check_request <$> targets1) lines
      ∧ length lines = O.
Proof.
  assert (all_targets hosts1 = Ok targets1) as Hsorted by reflexivity.
  split; [exact Hsorted|]. split; [reflexivity|].
  exact (proj1 (check_loop_requests client_accepting args0 hosts1 targets1 world0 Hsorted)
           (λ path, ex_intro _ _ eq_refl)).
Defined.

(** ** What a run sends *)

Lemma sends_only_bind {A B} P (m : io A) (k : A → io B) :
  sends_only P m → (∀ a, sends_only P (k a)) → sends_only P (m ≫= k).
Proof.
  intros Hm Hk w. rewrite io_bind_eq. destruct (Hm w) as (reqs & Hreq & Hall).
  destruct (m w) as [w1 [a|e]]; simpl in *; [|by exists reqs].
  destruct (Hk a w1) as (reqs' & Hreq' & Hall').
  exists (reqs ++ reqs'). split; [by rewrite Hreq', Hreq, app_assoc|].
  by apply Forall_app.
Qed.

Lemma sends_only_quiet {A} P (m : io A) :
  (∀ w, requests (m w).1 = requests w) → sends_only P m.
Proof. intros Hm w. exists []. by rewrite app_nil_r. Qed.

Lemma sends_only_for_each {A S} P (l : list A) (body : A → S → io S) s :
  (∀ x s, sends_only P (body x s)) → sends_only P (for_each l body s).
Proof.
  intros Hbody. revert s. induction l as [|x l IH]; intros s.
  - by apply sends_only_quiet.
  - simpl. apply sends_only_bind; [apply Hbody|apply IH].
Qed.

Lemma sends_only_weaken {A} (P Q : request → Prop) (m : io A) :
  (∀ r, P r → Q r) → sends_only P m → sends_only Q m.
Proof.
  intros HPQ Hm w. destruct (Hm w) as (reqs & Hreq & Hall).
  exists reqs. split; [done|]. by eapply Forall_impl.
Qed.

Lemma is_check_path host_id container_id :
  is_check (POST (check_path host_id container_id) []).
Proof.
  unfold check_path. simpl.
  destruct (str_truthy host_id && str_truthy container_id); [|by left].
  right. by eexists _, _.
Qed.

Lemma sends_only_check_updates client host_id container_id :
  sends_only is_check (check_updates client host_id container_id).
Proof.
  intros w. rewrite check_updates_run. simpl. eexists. split; [done|].
  constructor; [apply is_check_path|done].
Qed.

Lemma sends_only_check_loop client args hosts :
  sends_only is_check (check_loop client args hosts).
Proof.
  unfold check_loop. apply sends_only_for_each. intros [k host] [].
  apply sends_only_bind; [by apply sends_only_quiet|]. intros cs.
  apply sends_only_for_each. intros c [].
  apply sends_only_bind; [|intros _; apply sends_only_check_updates].
  apply sends_only_quiet. by destruct (negb (a_json args)).
Qed.

Lemma sends_only_get_container_status fromisoformat clock client args :
  sends_only is_get (get_container_status fromisoformat clock client args).
Proof.
  intros w.
  destruct (get_container_status fromisoformat clock client args w) as [w' r] eqn:Hrun.
  by apply get_container_status_gets in Hrun as [_ ?].
Qed.

(** X17. With [--check-updates], [main] never acts on a container, whatever
    other flags are given: however the run ends, every request it has sent
    is a GET or a POST that asks for a check. Without a host and a
    container filter the run is the single POST [updates/check-all], it
    prints nothing, and it raises exactly when that POST is refused. *)
Theorem main_check_updates_only datetime_str strftime json_dumps fromisoformat clock
    columns client modes args w w' r
    (Hcheck : m_check_updates modes = true)
    (Hrun : main datetime_str strftime json_dumps fromisoformat clock columns client
              modes args w = (w', r)) :
  (∃ reqs, requests w' = requests w ++ reqs
           ∧ Forall (λ req, is_get req ∨ is_check req) reqs)
  ∧ (str_truthy (a_host args) = false → str_truthy (a_container args) = false →
     w' = World (requests w ++ [POST "updates/check-all" []]) (stdout w)
     ∧ r = match ep_post client "updates/check-all" with
           | Reply _ => Ok tt
           | HttpError body => Raise (HTTPError body)
           end).
Proof.
  revert Hrun. unfold main. rewrite Hcheck. simpl.
  destruct (str_truthy (a_host args)) eqn:Hhost; simpl;
    [|destruct (str_truthy (a_container args)) eqn:Hcontainer; simpl].
  3:{ rewrite check_updates_run. intros [= <- <-]. split; [|done].
      eexists. split; [done|]. constructor; [|done]. right. by left. }
  all: intros Hrun; split; [|done].
  all: pose proof (sends_only_bind (λ req, is_get req ∨ is_check req)
                     (get_container_status fromisoformat clock client args)
                     (λ hosts, check_loop client args hosts)) as Hboth.
  all: destruct (Hboth
                   (sends_only_weaken _ _ _ (λ req, @or_introl _ _)
                      (sends_only_get_container_status fromisoformat clock client args))
                   (λ hosts, sends_only_weaken _ _ _ (λ req, @or_intror _ _)
                               (sends_only_check_loop client args hosts)) w)
         as (reqs & Hreq & Hall).
  all: cbv beta in Hreq; rewrite Hrun in Hreq; by exists reqs.
Qed.

Lemma main_check_updates_only_witness :
  main strftime_sample strftime_sample dumps_sample iso_sample clock0 100 client0
    modes_all args0 world0
  = (World [POST "updates/check-all" []] [], Ok tt)
  ∧ ∃ w', main strftime_sample strftime_sample dumps_sample iso_sample clock0 100
            client0 modes_all args_web world0 = (w', Ok tt)
          ∧ ∃ reqs, requests w' = requests world0 ++ reqs
                    ∧ Forall (λ req, is_get req ∨ is_check req) reqs.
Proof.
  split; [reflexivity|].
  eexists. split; [vm_compute; reflexivity|].
  refine (proj1 (main_check_updates_only strftime_sample strftime_sample dumps_sample
                   iso_sample clock0 100 client0 modes_all args_web world0 _ (Ok tt)
                   eq_refl _)).
  vm_compute. reflexivity.
Defined.

(** ** Structured output *)

(** X18. [update_status_dict] writes into the container's own dict: when
    [last_checked_at] holds a [datetime], the first call returns the dict
    with the formatted text in its place, the container holds that text
    afterwards, and a second call, and so a second [as_dict], raises
    [AttributeError]. *)
Theorem update_status_dict_once strftime (c : Container) (t : datetime)
    (Hat : _update_status c !! "last_checked_at" = Some (PDatetime t))
    (Hfmt : strftime t ≠ EmptyString) :
  ∃ c',
    update_status_dict strftime c
    = Ok (<["last_checked_at" := PJson (JStr (strftime t))]> (_update_status c), c')
    ∧ _update_status c'
      = <["last_checked_at" := PJson (JStr (strftime t))]> (_update_status c)
    ∧ update_status_dict strftime c' = Raise AttributeError
    ∧ ∀ clock, Container_as_dict strftime clock c' = Raise AttributeError.
Proof.
  eexists. unfold update_status_dict at 1, dict_get. rewrite Hat. simpl.
  split; [done|]. split; [done|].
  assert (update_status_dict strftime
            (with_update_status c
               (<["last_checked_at" := PJson (JStr (strftime t))]> (_update_status c)))
          = Raise AttributeError) as Hagain.
  { unfold update_status_dict, dict_get. simpl. rewrite lookup_insert_eq. simpl.
    by destruct (strftime t). }
  split; [exact Hagain|].
  intros clock. unfold Container_as_dict. simpl.
  destruct (c_host c); simpl; [|done]. by rewrite Hagain.
Qed.

Lemma update_status_dict_once_witness :
  _update_status merged0 !! "last_checked_at"
  = Some (PDatetime (Datetime 1704067200000000))
  ∧ ∃ c',
      update_status_dict strftime_sample merged0
      = Ok (<["last_checked_at" := PJson (JStr "1704067200")]> (_update_status merged0), c')
      ∧ _update_status c'
        = <["last_checked_at" := PJson (JStr "1704067200")]> (_update_status merged0)
      ∧ update_status_dict strftime_sample c' = Raise AttributeError
      ∧ ∀ clock, Container_as_dict strftime_sample clock c' = Raise AttributeError.
Proof.
  split; [reflexivity|].
  exact (update_status_dict_once strftime_sample merged0 (Datetime 1704067200000000)
           eq_refl (λ H, eq_ind "1704067200"
                           (λ s, match s with EmptyString => False | String _ _ => True end)
                           I EmptyString H)).
Defined.

Lemma from_service_init fromisoformat clock raw c :
  Container_init fromisoformat clock raw = Ok c → from_service c.
Proof.
  intros (_ & _ & _ & Hus & _)%Container_init_ok k v. rewrite Hus.
  unfold default_update_status. intros [<- <-]%lookup_singleton_Some. by left.
Qed.

Lemma from_service_merge fromisoformat clock c (body : gmap string json) c' :
  set_update_status fromisoformat clock c (PJson <$> body) = Ok c' → from_service c'.
Proof.
  unfold set_update_status.
  destruct (subscript _ "current_version") as [cv|]; [|done]. simpl.
  set (us := if negb (truthy cv) && str_truthy (_version c) then _ else _).
  assert (∀ k v, us !! k = Some v → is_json v = true) as Hus.
  { intros k v. unfold us.
    destruct (negb (truthy cv) && str_truthy (_version c)).
    - destruct (decide (k = "current_version")) as [-> | Hne].
      + rewrite lookup_insert_eq. intros [= <-]. by destruct (_version c).
      + rewrite lookup_insert_ne by done. rewrite lookup_fmap.
        destruct (body !! k); [|done]. by intros [= <-].
    - rewrite lookup_fmap. destruct (body !! k); [|done]. by intros [= <-]. }
  destruct (truthy (dict_get us "last_checked_at")).
  - rewrite parse_ns_iso8601_total. simpl. intros [= <-] k v. simpl.
    destruct (decide (k = "last_checked")) as [-> | Hne1].
    { rewrite lookup_insert_eq. intros [= <-]. by left. }
    rewrite lookup_insert_ne by done.
    destruct (decide (k = "last_checked_at")) as [-> | Hne2]; [by right|].
    rewrite lookup_insert_ne by done. intros Hk. left. by apply (Hus k).
  - simpl. intros [= <-] k v Hk. left. by apply (Hus k).
Qed.

Lemma from_service_set_host c h : from_service c → from_service (set_host c h).
Proof. done. Qed.

Lemma as_dict_from_service strftime clock c view c' :
  from_service c →
  Container_as_dict strftime clock c = Ok (view, c') →
  serializable view = true.
Proof.
  intros Hfs. unfold Container_as_dict.
  destruct (c_host c); simpl; [|done].
  destruct (update_status_dict strftime c) as [[us c1]|] eqn:Hus; simpl; [|done].
  intros [= <- <-]. unfold serializable. simpl. apply bool_decide_eq_true.
  revert Hus. unfold update_status_dict.
  destruct (truthy (dict_get (_update_status c) "last_checked_at")) eqn:Htruthy.
  - destruct (dict_get (_update_status c) "last_checked_at") as [j|t]; [done|].
    intros [= <- <-] k v.
    destruct (decide (k = "last_checked_at")) as [-> | Hne].
    + rewrite lookup_insert_eq. by intros [= <-].
    + rewrite lookup_insert_ne by done. intros Hk.
      destruct (Hfs k v Hk); done.
  - intros [= <- <-] k v Hk. destruct (Hfs k v Hk) as [Hj | ->]; [done|].
    unfold dict_get in Htruthy. rewrite Hk in Htruthy. by destruct v.
Qed.

(** X19. What [as_dict] puts under [update_status] can be serialised: for
    a container as the program builds it, whether or not a status of the
    service has been merged into it, the dict holds no [datetime]. *)
Theorem as_dict_serializable fromisoformat strftime clock clock' raw c0 c h view c'
    (Hinit : Container_init fromisoformat clock raw = Ok c0)
    (Hmerged : c = c0 ∨ ∃ body : gmap string json,
                 set_update_status fromisoformat clock c0 (PJson <$> body) = Ok c)
    (Hview : Container_as_dict strftime clock' (set_host c h) = Ok (view, c')) :
  serializable view = true.
Proof.
  apply (as_dict_from_service strftime clock' (set_host c h) view c'); [|done].
  apply from_service_set_host. destruct Hmerged as [-> | [body Hbody]].
  - by eapply from_service_init.
  - by eapply from_service_merge.
Qed.

Lemma as_dict_serializable_witness :
  Container_init iso_sample clock0 raw0 = Ok container0
  ∧ set_update_status iso_sample clock0 container0 (PJson <$> status0) = Ok merged0
  ∧ ∃ view c',
      Container_as_dict strftime_sample clock0
        (set_host merged0 {| hs_id := Some "h1"; hs_name := Some "alpha" |})
      = Ok (view, c')
      ∧ v_update_status view !! "last_checked_at" = Some (PJson (JStr "1704067200"))
      ∧ serializable view = true.
Proof.
  assert (Container_init iso_sample clock0 raw0 = Ok container0) as Hinit
    by (vm_compute; reflexivity).
  assert (set_update_status iso_sample clock0 container0 (PJson <$> status0) = Ok merged0)
    as Hmerged by (vm_compute; reflexivity).
  split; [exact Hinit|]. split; [exact Hmerged|].
  eexists _, _. split; [vm_compute; reflexivity|]. split; [vm_compute; reflexivity|].
  refine (as_dict_serializable iso_sample strftime_sample clock0 clock0 raw0 container0
            merged0 {| hs_id := Some "h1"; hs_name := Some "alpha" |} _ _ Hinit
            (or_intror (ex_intro _ status0 Hmerged)) _).
  vm_compute. reflexivity.
Defined.

Lemma containers_length h cs : containers h = Ok cs → length cs = length (_containers h).
Proof. intros [Hperm _]%sorted_spec. by rewrite Hperm. Qed.

Lemma mapM_result_length {A B} (f : A → result B) (l : list A) r :
  mapM f l = Ok r → length r = length l.
Proof.
  revert r. induction l as [|x l IH]; intros r.
  - by intros [= <-].
  - rewrite mapM_result_cons. destruct (f x); simpl; [|done].
    destruct (mapM f l) as [r'|]; simpl; [|done].
    intros [= <-]. simpl. f_equal. by apply IH.
Qed.

Lemma views_serializable strftime clock cs views :
  Forall from_service cs →
  mapM (λ c, vc ← Container_as_dict strftime clock c; Ok vc.1) cs = Ok views →
  forallb serializable views = true.
Proof.
  intros Hcs. revert views. induction Hcs as [|c cs Hc _ IH]; intros views.
  - by intros [= <-].
  - rewrite mapM_result_cons.
    destruct (Container_as_dict strftime clock c) as [[view c']|] eqn:Hview;
      simpl; [|done].
    destruct (mapM _ cs) as [views'|]; simpl; [|done].
    intros [= <-]. simpl.
    rewrite (as_dict_from_service strftime clock c view c' Hc Hview). by apply IH.
Qed.

Lemma Host_as_dict_ok strftime clock h view h' :
  Host_as_dict strftime clock h = Ok (view, h') →
  view_outline view = host_outline h
  ∧ (Forall from_service (_containers h) →
     forallb serializable (hv_containers view) = true).
Proof.
  unfold Host_as_dict.
  destruct (containers h) as [cs|] eqn:Hcs; simpl; [|done].
  destruct (mapM _ cs) as [views|] eqn:Hviews; simpl; [|done].
  intros [= <- <-]. split.
  - unfold view_outline, host_outline. simpl.
    by rewrite (mapM_result_length _ _ _ Hviews), (containers_length _ _ Hcs).
  - simpl. intros Hall. apply (views_serializable strftime clock cs); [|done].
    apply sorted_spec in Hcs as [Hperm _]. by rewrite Hperm.
Qed.

Lemma hosts_as_dicts_ok strftime clock hosts out :
  hosts_as_dicts strftime clock hosts = Ok out →
  view_outline <$> out = host_outline <$> non_empty_hosts hosts
  ∧ (Forall (λ h, Forall from_service (_containers h)) hosts.*2 →
     forallb (λ hv, forallb serializable (hv_containers hv)) out = true).
Proof.
  revert out. induction hosts as [|[k h] hosts IH]; intros out.
  - by intros [= <-].
  - simpl. destruct (containers h) as [cs|] eqn:Hcs; simpl; [|done].
    unfold non_empty_hosts. simpl. rewrite filter_cons.
    rewrite <- (containers_length _ _ Hcs).
    destruct (0 <? Z.of_nat (length cs)) eqn:Hlen.
    + destruct (Host_as_dict strftime clock h) as [[view h']|] eqn:Hview; simpl; [|done].
      destruct (hosts_as_dicts strftime clock hosts) as [rest|]; simpl; [|done].
      intros [= <-]. destruct (IH rest eq_refl) as [IH1 IH2].
      apply Host_as_dict_ok in Hview as [Hout Hser].
      destruct (decide _) as [_|Hn]; [|apply Z.ltb_lt in Hlen; lia].
      split.
      * simpl. f_equal; [done|exact IH1].
      * intros Hall. apply Forall_cons in Hall as [Hh Hall]. simpl.
        by rewrite Hser, IH2.
    + destruct (decide _) as [Hp|_]; [apply Z.ltb_ge in Hlen; lia|].
      intros Hrest. destruct (IH out Hrest) as [IH1 IH2]. split; [exact IH1|].
      intros Hall. apply Forall_cons in Hall as [_ Hall]. by apply IH2.
Qed.

(** X20. [json_format] prints one document and sends nothing. The hosts
    without containers are left out of it, the others appear in the order
    of the table with their id, their name and one entry per container;
    when none is left the document is the message that nothing matched.
    For containers as the program builds them the serialisation does not
    fail. *)
Theorem json_format_document strftime json_dumps clock hosts out w
    (Hservice : Forall (λ h, Forall from_service (_containers h)) hosts.*2)
    (Hout : hosts_as_dicts strftime clock hosts = Ok out) :
  view_outline <$> out = host_outline <$> non_empty_hosts hosts
  ∧ json_format strftime json_dumps clock hosts w
    = (World (requests w) (stdout w ++ [Line (json_dumps (document_of out))]), Ok tt).
Proof.
  destruct (hosts_as_dicts_ok strftime clock hosts out Hout) as [Houtline Hser].
  split; [exact Houtline|].
  unfold json_format. rewrite Hout.
  unfold mbind, io_bind, mret, io_ret, lift, print. simpl.
  destruct out as [|hv out]; [done|]. simpl.
  unfold dumps_hosts. by rewrite (Hser Hservice).
Qed.

Lemma json_format_document_witness :
  (host_outline <$> hosts1.*2)
  = [(Some "h1", Some "alpha", 2%nat); (Some "h2", Some "beta", 0%nat)]
  ∧ view_outline <$> views1 = [(Some "h1", Some "alpha", 2%nat)]
  ∧ json_format strftime_sample dumps_sample clock0 hosts1 world1
    = (World (requests world1) [Line "hosts:1"], Ok tt).
Proof.
  assert (Forall (λ h, Forall from_service (_containers h)) hosts1.*2) as Hservice.
  { refine (bool_decide_unpack _ _). vm_compute. exact I. }
  assert (hosts_as_dicts strftime_sample clock0 hosts1 = Ok views1) as Hout
    by (vm_compute; reflexivity).
  split; [reflexivity|]. split; [reflexivity|].
  exact (proj2 (json_format_document strftime_sample dumps_sample clock0 hosts1 views1
                  world1 Hservice Hout)).
Defined.

(** ** The table *)

Lemma counts_of_cons c cs :
  counts_of (c :: cs) = add_counters (counts_of [c]) (counts_of cs).
Proof.
  unfold counts_of, add_counters, count_updates, count_state. simpl.
  rewrite !filter_cons, !filter_nil.
  f_equal; repeat destruct (decide _); simpl; lia.
Qed.

Lemma add_counters_assoc n m k :
  add_counters (add_counters n m) k = add_counters n (add_counters m k).
Proof. unfold add_counters. simpl. f_equal; lia. Qed.

Lemma add_counters_zero n : add_counters n (counts_of []) = n.
Proof.
  destruct n. unfold add_counters, counts_of, count_updates, count_state.
  rewrite !filter_nil. simpl. f_equal; lia.
Qed.

Lemma cli_format_row_ok datetime_str nw iw sw vw c n w w' n' :
  cli_format_row datetime_str nw iw sw vw c n w = (w', Ok n') →
  n' = add_counters n (counts_of [c])
  ∧ requests w' = requests w ∧ ∃ row, stdout w' = stdout w ++ [row].
Proof.
  unfold cli_format_row, subscript.
  destruct (_update_status c !! "update_available") as [ua|] eqn:Hua; [|done].
  unfold mbind, io_bind, mret, io_ret, lift, print. simpl.
  destruct (ljust_opt nw (c_name c)); [|done].
  destruct (ljust_opt iw (c_image c)); [|done].
  destruct (color_state (c_state c)); [|done].
  destruct (color_update datetime_str (_update_status c)); [|done].
  intros [= <- <-]. simpl. split; [|split; [done|by eexists]].
  unfold add_counters, counts_of, count_updates, count_state, dict_get. simpl.
  rewrite !filter_cons, !filter_nil, Hua. simpl.
  f_equal.
  - destruct (truthy ua); simpl; [|lia]. lia.
  - destruct (decide (c_state c = Some "running")) as [Hs|Hs].
    + rewrite bool_decide_eq_true_2 by done. simpl. lia.
    + rewrite bool_decide_eq_false_2 by done. simpl. lia.
  - destruct (decide (c_state c = Some "exited")) as [Hs|Hs].
    + rewrite bool_decide_eq_true_2 by done. simpl. lia.
    + rewrite bool_decide_eq_false_2 by done. simpl. lia.
Qed.

Lemma cli_format_rows_ok datetime_str nw iw sw vw cs n w w' n' :
  for_each cs (cli_format_row datetime_str nw iw sw vw) n w = (w', Ok n') →
  n' = add_counters n (counts_of cs)
  ∧ requests w' = requests w
  ∧ ∃ rows, stdout w' = stdout w ++ rows ∧ length rows = length cs.
Proof.
  revert n w. induction cs as [|c cs IH]; intros n w.
  - intros [= <- <-]. rewrite add_counters_zero. split; [done|]. split; [done|].
    exists []. by rewrite app_nil_r.
  - rewrite for_each_cons.
    destruct (cli_format_row datetime_str nw iw sw vw c n w) as [w1 [n1|e]] eqn:Hrow;
      [|done].
    apply cli_format_row_ok in Hrow as (-> & Hreq & row & Hout).
    intros (-> & Hreq' & rows & Hout' & Hlen)%IH.
    split; [by rewrite (counts_of_cons c cs), add_counters_assoc|].
    split; [by rewrite Hreq', Hreq|].
    exists (row :: rows). split; [|simpl; by f_equal].
    rewrite Hout', Hout. by rewrite <- app_assoc.
Qed.

(** X21. What [cli_format_containers] prints when it returns: for an empty
    list a notice and a blank line; otherwise a header, a rule, one row per
    container, a blank line, the summary and a blank line. The summary
    counts every container, those whose state is exactly [running], those
    whose state is exactly [exited], and those whose [update_available] is
    true. Nothing is sent to the service. *)
Theorem cli_format_containers_summary datetime_str columns cs w w'
    (Hrun : cli_format_containers datetime_str columns cs w = (w', Ok tt)) :
  requests w' = requests w
  ∧ (cs = [] → ∃ notice, stdout w' = stdout w ++ [notice; Line EmptyString])
  ∧ (cs ≠ [] →
     ∃ header rule rows,
       stdout w' = stdout w ++ [header; rule] ++ rows
                   ++ [Line EmptyString; summary_line (counts_of cs); Line EmptyString]
       ∧ length rows = length cs).
Proof.
  destruct cs as [|c cs].
  - revert Hrun. unfold cli_format_containers, mbind, io_bind, print. simpl.
    intros [= <-]. simpl. split; [done|]. split; [|done].
    intros _. eexists. by rewrite <- app_assoc.
  - revert Hrun. unfold cli_format_containers.
    set (all := c :: cs).
    destruct (mapM (λ c, len_opt (c_name c)) all) as [name_lens|]; [|done].
    destruct (mapM (λ c, len_opt (c_image c)) all) as [image_lens|]; [|done].
    unfold mbind at 1 2 3 4 5, io_bind at 1 2 3 4 5, lift, print at 1 2. simpl.
    set (nw := Z.max (max_list name_lens) 9 + 2).
    set (iw := max_list image_lens + 2).
    set (vw := Z.max _ 9 + 11).
    set (header := Line _). set (rule := Line _).
    change (cli_format_row datetime_str nw iw 25 vw c ?n ≫= ?k)
      with (for_each all (cli_format_row datetime_str nw iw 25 vw) n).
    match goal with
    | |- context [for_each all ?body ?s ?w0] =>
        destruct (for_each all body s w0) as [w1 [n|e]] eqn:Hrows; [|done]
    end.
    apply cli_format_rows_ok in Hrows as (-> & Hreq & rows & Hout & Hlen).
    unfold mbind, io_bind, print. simpl. intros [= <-]. simpl.
    split; [exact Hreq|]. split; [done|]. intros _.
    exists header, rule, rows. split; [|exact Hlen].
    rewrite Hout. simpl. rewrite <- !app_assoc. simpl.
    reflexivity.
Qed.

Lemma cli_format_containers_summary_witness :
  counts_of targets1.*2 = {| tot := 2; uas := 1; run := 2; sto := 0 |}
  ∧ ∃ w', cli_format_containers strftime_sample 100 targets1.*2 world0 = (w', Ok tt)
          ∧ ∃ header rule rows,
              stdout w' = stdout world0 ++ [header; rule] ++ rows
                          ++ [Line EmptyString; summary_line (counts_of targets1.*2);
                              Line EmptyString]
              ∧ length rows = length targets1.*2.
Proof.
  split; [vm_compute; reflexivity|].
  eexists. split; [vm_compute; reflexivity|].
  refine (proj2 (proj2 (cli_format_containers_summary strftime_sample 100 targets1.*2
                          world0 _ _)) _).
  - vm_compute. reflexivity.
  - discriminate.
Defined.

Lemma cli_format_row_returns datetime_str nw iw sw vw c n w :
  (∃ w' n', cli_format_row datetime_str nw iw sw vw c n w = (w', Ok n')) ↔ printable c.
Proof.
  unfold cli_format_row, printable, color_update, subscript.
  destruct (_update_status c !! "update_available") as [ua|] eqn:Hua.
  2:{ split; [by intros (? & ? & ?)|]. by intros (_ & _ & _ & ? & ? & _). }
  unfold mbind at 1 2 3 4 5, io_bind, mret, io_ret, lift, print. simpl.
  destruct (c_name c) as [name|]; simpl.
  2:{ split; [by intros (? & ? & ?)|]. by intros ([? ?] & _). }
  destruct (c_image c) as [image|]; simpl.
  2:{ split; [by intros (? & ? & ?)|]. by intros (_ & [? ?] & _). }
  destruct (c_state c) as [state|].
  2:{ simpl. split; [by intros (? & ? & ?)|]. by intros (_ & _ & [? ?] & _). }
  assert (∃ text, color_state (Some state) = Ok text) as [text ->].
  { unfold color_state. cbv zeta. repeat destruct (String.eqb _ _); by eexists. }
  simpl.
  destruct (truthy ua) eqn:Htruthy.
  - destruct (_update_status c !! "latest_version") as [latest|]; simpl.
    + split; [|by eexists _, _]. intros _. repeat (split; [done|]).
      exists ua. split; [done|]. by intros _.
    + split; [by intros (? & ? & ?)|].
      intros (_ & _ & _ & ua' & [= <-] & Hlatest).
      by destruct (Hlatest Htruthy).
  - split; [|by eexists _, _]. intros _. repeat (split; [done|]).
    exists ua. split; [done|]. by rewrite Htruthy.
Qed.

Lemma cli_format_rows_return datetime_str nw iw sw vw cs n w :
  (∃ w' n', for_each cs (cli_format_row datetime_str nw iw sw vw) n w = (w', Ok n'))
  ↔ Forall printable cs.
Proof.
  revert n w. induction cs as [|c cs IH]; intros n w.
  - split; [done|]. intros _. by eexists _, _.
  - rewrite for_each_cons, Forall_cons.
    rewrite <- (cli_format_row_returns datetime_str nw iw sw vw c n w).
    destruct (cli_format_row datetime_str nw iw sw vw c n w) as [w1 [n1|e]].
    + rewrite <- (IH n1 w1). split; [|by intros [_ ?]].
      intros Hrest. split; [by eexists _, _|done].
    + split; [by intros (? & ? & ?)|]. by intros [(? & ? & ?) _].
Qed.

Lemma mapM_len_opt {A} (f : A → option string) (l : list A) :
  Forall (λ x, is_Some (f x)) l → ∃ lens, mapM (λ x, len_opt (f x)) l = Ok lens.
Proof.
  induction 1 as [|x l [s Hs] _ [lens IH]]; [by eexists|].
  rewrite mapM_result_cons, Hs, IH. by eexists.
Qed.

(** X22. [cli_format_containers] returns exactly for the lists in which
    every container has a name, an image and a state, and a status with
    [update_available] and, when that is true, [latest_version]; on any
    other list it raises. *)
Theorem cli_format_containers_returns datetime_str columns cs w :
  (∃ w', cli_format_containers datetime_str columns cs w = (w', Ok tt))
  ↔ Forall printable cs.
Proof.
  destruct cs as [|c cs]; [split; [done|by eexists]|].
  unfold cli_format_containers. set (all := c :: cs). split.
  - intros [w' Hrun]. revert Hrun.
    destruct (mapM (λ c, len_opt (c_name c)) all) as [name_lens|]; [|done].
    destruct (mapM (λ c, len_opt (c_image c)) all) as [image_lens|]; [|done].
    unfold mbind at 1 2 3 4 5, io_bind at 1 2 3 4 5, lift, print at 1 2.
    cbv beta iota.
    match goal with
    | |- context [for_each all ?body ?s ?w0] =>
        destruct (for_each all body s w0) as [w1 [n|e]] eqn:Hrows; [|done]
    end.
    intros _. eapply cli_format_rows_return. by eexists _, _.
  - intros Hall.
    destruct (mapM_len_opt c_name all) as [name_lens ->].
    { eapply Forall_impl; [exact Hall|]. by intros ? (? & _). }
    destruct (mapM_len_opt c_image all) as [image_lens ->].
    { eapply Forall_impl; [exact Hall|]. by intros ? (_ & ? & _). }
    unfold mbind at 1 2 3 4 5, io_bind at 1 2 3 4 5, lift, print at 1 2.
    cbv beta iota.
    match goal with
    | |- context [for_each all ?body ?s ?w0] =>
        destruct (for_each all body s w0) as [w1 [n|e]] eqn:Hrows
    end.
    + by eexists.
    + exfalso.
      match type of Hrows with
      | for_each all (cli_format_row _ ?nw ?iw ?sw ?vw) ?s ?w0 = _ =>
          destruct (proj2 (cli_format_rows_return datetime_str nw iw sw vw all s w0)
                      Hall) as (w2 & n2 & Hok)
      end.
      by rewrite Hok in Hrows.
Qed.

(** ** What the display sends *)

Lemma silent_bind {A B} (m : io A) (k : A → io B) :
  silent m → (∀ a, silent (k a)) → silent (m ≫= k).
Proof.
  intros Hm Hk w. rewrite io_bind_eq. specialize (Hm w).
  destruct (m w) as [w1 [a|e]]; simpl in *; [|done].
  by rewrite Hk.
Qed.

Lemma silent_lift {A} (r : result A) : silent (lift r).
Proof. done. Qed.

Lemma silent_ret {A} (a : A) : silent (mret a).
Proof. done. Qed.

Lemma silent_print o : silent (print o).
Proof. done. Qed.

Lemma silent_for_each {A S} (l : list A) (body : A → S → io S) s :
  (∀ x s, silent (body x s)) → silent (for_each l body s).
Proof.
  intros Hbody. revert s. induction l as [|x l IH]; intros s; [done|].
  simpl. apply silent_bind; [apply Hbody|apply IH].
Qed.

Lemma silent_cli_format_row datetime_str nw iw sw vw c n :
  silent (cli_format_row datetime_str nw iw sw vw c n).
Proof.
  unfold cli_format_row.
  repeat (apply silent_bind;
          [first [apply silent_lift | apply silent_print]|intros ?]).
  apply silent_ret.
Qed.

Lemma silent_cli_format_containers datetime_str columns cs :
  silent (cli_format_containers datetime_str columns cs).
Proof.
  unfold cli_format_containers. destruct cs as [|c cs].
  - apply silent_bind; [apply silent_print|]. intros _. apply silent_print.
  - set (all := c :: cs).
    apply silent_bind; [apply silent_lift|]. intros name_lens.
    apply silent_bind; [apply silent_lift|]. intros image_lens.
    apply silent_bind; [apply silent_print|]. intros _.
    apply silent_bind; [apply silent_print|]. intros _.
    apply silent_bind.
    { apply silent_for_each. intros c' n. apply silent_cli_format_row. }
    intros n.
    apply silent_bind; [apply silent_print|]. intros _.
    apply silent_bind; [apply silent_print|]. intros _.
    apply silent_print.
Qed.

Lemma silent_json_format strftime json_dumps clock hosts :
  silent (json_format strftime json_dumps clock hosts).
Proof.
  unfold json_format. apply silent_bind; [apply silent_lift|].
  intros [|hv out]; [apply silent_print|].
  apply silent_bind; [apply silent_lift|]. intros ?. apply silent_print.
Qed.

Lemma silent_display datetime_str strftime json_dumps clock columns args hosts :
  silent (display datetime_str strftime json_dumps clock columns args hosts).
Proof.
  unfold display. destruct (a_json args); [apply silent_json_format|].
  apply silent_for_each. intros [k h] []. unfold cli_format_host.
  apply silent_bind; [apply silent_print|]. intros _.
  apply silent_bind; [apply silent_lift|]. intros cs.
  apply silent_cli_format_containers.
Qed.

(** X23. Without [--check-updates], [--update] and [--restart], a run of
    [main] only reads from the service: however it ends, every request it
    has sent is a GET. *)
Theorem main_display_reads_only datetime_str strftime json_dumps fromisoformat clock
    columns client modes args w w' r
    (Hcheck : m_check_updates modes = false)
    (Hupdate : m_update modes = false)
    (Hrestart : m_restart modes = false)
    (Hrun : main datetime_str strftime json_dumps fromisoformat clock columns client
              modes args w = (w', r)) :
  ∃ reqs, requests w' = requests w ++ reqs ∧ Forall is_get reqs.
Proof.
  revert Hrun. unfold main. rewrite Hcheck, Hupdate, Hrestart. simpl.
  rewrite io_bind_eq.
  destruct (get_container_status fromisoformat clock client args w)
    as [w1 [hosts|e]] eqn:Hstatus;
    apply get_container_status_gets in Hstatus as (_ & reqs & Hreq & Hget).
  - intros Hshow. exists reqs. split; [|done]. rewrite <- Hreq.
    pose proof (silent_display datetime_str strftime json_dumps clock columns args
                  hosts w1) as Hsilent.
    by rewrite Hshow in Hsilent.
  - intros [= <- <-]. by exists reqs.
Qed.

Lemma main_display_reads_only_witness :
  ∃ w', main strftime_sample strftime_sample dumps_sample iso_sample clock0 100 client0
          modes_none args0 world0 = (w', Ok tt)
        ∧ stdout w' = [Line "hosts:1"]
        ∧ ∃ reqs, requests w' = requests world0 ++ reqs ∧ Forall is_get reqs.
Proof.
  eexists. split; [vm_compute; reflexivity|]. split; [reflexivity|].
  refine (main_display_reads_only strftime_sample strftime_sample dumps_sample
            iso_sample clock0 100 client0 modes_none args0 world0 _ (Ok tt)
            eq_refl eq_refl eq_refl _).
  vm_compute. reflexivity.
Defined.
